(** * labelCloud: the point-cloud model ([labelCloud/model/point_cloud.py])

    A shallow embedding of the [PointCloud] class and of
    [calculate_init_translation], followed by the properties of the
    specification that were checked against it.

    Modelling conventions.
    - Python floats and numpy float arrays are idealised as real numbers
      ([R]); [astype(np.float32)] is therefore the identity.  Rounding is
      outside the model, so a statement below either gives the expression
      the code evaluates or is a fact that rounding cannot break (an exact
      selection such as a minimum, a closed bound); strict bounds and
      algebraic identities that hold only of the exact reals are not
      stated of the code.
    - An [N x 3] numpy array is a list of triples; [None] is [option]'s [None].
    - A method that mutates [self] is a function from the object's state to
      its new state; a method that can raise returns a [result].
    - The OpenGL context is an explicit state threaded through the calls
      that touch it. *)

From Stdlib Require Import String Reals Lra Lia ZArith List Bool Arith.
From Stdlib Require Import Zfloor Sorted.
Import ListNotations.

Open Scope R_scope.

(** ** Exceptions and results *)

Inductive exn : Type :=
| ValueError
| IndexError
| KeyError
| TypeError
| AttributeError.

Inductive result (A : Type) : Type :=
| Ok (a : A)
| Raise (e : exn).

Arguments Ok {A} a.
Arguments Raise {A} e.

Definition bind {A B : Type} (r : result A) (k : A -> result B) : result B :=
  match r with
  | Ok a => k a
  | Raise e => Raise e
  end.

Notation "x <- r ;; k" := (bind r (fun x => k))
  (at level 61, r at next level, right associativity).

Fixpoint mapM {A B : Type} (f : A -> result B) (l : list A) : result (list B) :=
  match l with
  | [] => Ok []
  | a :: l' => b <- f a ;; bs <- mapM f l' ;; Ok (b :: bs)
  end.

(** ** Triples of floats: [Point3D], [Rotations3D], [Translation3D], RGB rows *)

Definition Point3D : Type := (R * R * R)%type.
Definition Rotations3D : Type := Point3D.
Definition Translation3D : Type := Point3D.
Definition RGB : Type := Point3D.

Definition px (p : Point3D) : R := fst (fst p).
Definition py (p : Point3D) : R := snd (fst p).
Definition pz (p : Point3D) : R := snd p.

Definition vadd (a b : Point3D) : Point3D :=
  (px a + px b, py a + py b, pz a + pz b).
Definition vsub (a b : Point3D) : Point3D :=
  (px a - px b, py a - py b, pz a - pz b).
Definition vneg (a : Point3D) : Point3D := (- px a, - py a, - pz a).
Definition vscale (a : Point3D) (s : R) : Point3D :=
  (px a * s, py a * s, pz a * s).
Definition vzero : Point3D := (0, 0, 0).

(** [np.linalg.norm] of a 3-vector. *)
Definition np_linalg_norm (v : Point3D) : R :=
  sqrt (px v * px v + py v * py v + pz v * pz v).

(** Python's [x % m] on floats: the floor-mod, [x - m * floor (x / m)].
    The float operation rounds its result: for [m = 360] it stays within
    [0, 360] but can reach 360 itself. *)
Definition py_mod (x m : R) : R := x - m * IZR (Zfloor (x / m)).

(** ** Configuration store ([config]) *)

Record Config : Type := mkConfig {
  far_plane : R;                   (* USER_INTERFACE / far_plane *)
  SEGMENTATION : bool;             (* MODE / SEGMENTATION *)
  label_color_mix_ratio : R;       (* POINTCLOUD / label_color_mix_ratio *)
  COLORLESS_COLORIZE : bool;       (* POINTCLOUD / COLORLESS_COLORIZE *)
  COLORLESS_COLOR : list R;        (* POINTCLOUD / COLORLESS_COLOR *)
  color_with_label_flag : bool;    (* POINTCLOUD / color_with_label *)
  point_size_value : R             (* POINTCLOUD / point_size *)
}.

(** ** OpenGL buffer state

    [glGenBuffers n] hands out [n] fresh buffer names; [glBufferData]
    stores an array under a name. *)

Record GLState : Type := mkGL {
  gl_generated : nat;
  gl_store : list (nat * list Point3D)
}.

Definition gl_empty : GLState := mkGL 0 [].

Definition glGenBuffers3 (gl : GLState) : (nat * nat * nat) * GLState :=
  let n := gl_generated gl in
  ((S n, S (S n), S (S (S n))), mkGL (3 + n) (gl_store gl)).

Definition glBufferData (vbo : nat) (data : list Point3D) (gl : GLState)
  : GLState :=
  mkGL (gl_generated gl) (gl_store gl ++ [(vbo, data)]).

(** ** Python dictionaries (insertion ordered) *)

Section Dict.
Context {K V : Type}.
Variable eqb : K -> K -> bool.

Fixpoint dict_get (d : list (K * V)) (k : K) : option V :=
  match d with
  | [] => None
  | (k', v) :: d' => if eqb k' k then Some v else dict_get d' k
  end.

(** [d[k] = v]: overwrite in place, or append a new key. *)
Fixpoint dict_set (d : list (K * V)) (k : K) (v : V) : list (K * V) :=
  match d with
  | [] => [(k, v)]
  | (k', v') :: d' =>
      if eqb k' k then (k', v) :: d' else (k', v') :: dict_set d' k v
  end.
End Dict.

Definition dict_keys {K V : Type} (d : list (K * V)) : list K := map fst d.
Definition dict_values {K V : Type} (d : list (K * V)) : list V := map snd d.

(** ** The [PointCloud] object *)

Record PointCloud : Type := mkPointCloud {
  path : string;
  points : list Point3D;
  colors : option (list RGB);
  label_definition : list (string * Z);
  labels : option (list Z);
  label_color_map : option (list RGB);
  mix_ratio : option R;
  vbos : option (nat * nat * nat);
  center : Point3D;
  pcd_mins : Point3D;
  pcd_maxs : Point3D;
  init_translation : Point3D;
  init_rotation : Rotations3D;
  trans_x : R;
  trans_y : R;
  trans_z : R;
  rot_x : R;
  rot_y : R;
  rot_z : R
}.

(** Attribute assignments used by the mutating methods. *)

Definition with_rot (pc : PointCloud) (x y z : R) : PointCloud :=
  mkPointCloud (path pc) (points pc) (colors pc) (label_definition pc)
    (labels pc) (label_color_map pc) (mix_ratio pc) (vbos pc) (center pc)
    (pcd_mins pc) (pcd_maxs pc) (init_translation pc) (init_rotation pc)
    (trans_x pc) (trans_y pc) (trans_z pc) x y z.

Definition with_trans (pc : PointCloud) (x y z : R) : PointCloud :=
  mkPointCloud (path pc) (points pc) (colors pc) (label_definition pc)
    (labels pc) (label_color_map pc) (mix_ratio pc) (vbos pc) (center pc)
    (pcd_mins pc) (pcd_maxs pc) (init_translation pc) (init_rotation pc)
    x y z (rot_x pc) (rot_y pc) (rot_z pc).

Definition with_colors (pc : PointCloud) (c : option (list RGB)) : PointCloud :=
  mkPointCloud (path pc) (points pc) c (label_definition pc)
    (labels pc) (label_color_map pc) (mix_ratio pc) (vbos pc) (center pc)
    (pcd_mins pc) (pcd_maxs pc) (init_translation pc) (init_rotation pc)
    (trans_x pc) (trans_y pc) (trans_z pc) (rot_x pc) (rot_y pc) (rot_z pc).

Definition with_vbos (pc : PointCloud) (v : nat * nat * nat) : PointCloud :=
  mkPointCloud (path pc) (points pc) (colors pc) (label_definition pc)
    (labels pc) (label_color_map pc) (mix_ratio pc) (Some v) (center pc)
    (pcd_mins pc) (pcd_maxs pc) (init_translation pc) (init_rotation pc)
    (trans_x pc) (trans_y pc) (trans_z pc) (rot_x pc) (rot_y pc) (rot_z pc).

(** *** Getters and setters *)

Definition get_no_of_points (pc : PointCloud) : nat := length (points pc).

Definition get_rotations (pc : PointCloud) : Rotations3D :=
  (rot_x pc, rot_y pc, rot_z pc).

Definition get_translation (pc : PointCloud) : Translation3D :=
  (trans_x pc, trans_y pc, trans_z pc).

Definition get_mins_maxs (pc : PointCloud) : Point3D * Point3D :=
  (pcd_mins pc, pcd_maxs pc).

Definition get_min_max_height (pc : PointCloud) : R * R :=
  (pz (pcd_mins pc), pz (pcd_maxs pc)).

Definition set_rot_x (pc : PointCloud) (angle : R) : PointCloud :=
  with_rot pc (py_mod angle 360) (rot_y pc) (rot_z pc).

Definition set_rot_y (pc : PointCloud) (angle : R) : PointCloud :=
  with_rot pc (rot_x pc) (py_mod angle 360) (rot_z pc).

Definition set_rot_z (pc : PointCloud) (angle : R) : PointCloud :=
  with_rot pc (rot_x pc) (rot_y pc) (py_mod angle 360).

Definition set_rotations (pc : PointCloud) (x y z : R) : PointCloud :=
  with_rot pc (py_mod x 360) (py_mod y 360) (py_mod z 360).

Definition set_trans_x (pc : PointCloud) (val : R) : PointCloud :=
  with_trans pc val (trans_y pc) (trans_z pc).

Definition set_trans_y (pc : PointCloud) (val : R) : PointCloud :=
  with_trans pc (trans_x pc) val (trans_z pc).

Definition set_trans_z (pc : PointCloud) (val : R) : PointCloud :=
  with_trans pc (trans_x pc) (trans_y pc) val.

Definition set_translations (pc : PointCloud) (x y z : R) : PointCloud :=
  with_trans pc x y z.

(** [reset_perspective]: both tuple assignments read [self.init_rotation]. *)
Definition reset_perspective (pc : PointCloud) : PointCloud :=
  let pc1 := with_trans pc (px (init_rotation pc)) (py (init_rotation pc))
               (pz (init_rotation pc)) in
  with_rot pc1 (px (init_rotation pc1)) (py (init_rotation pc1))
    (pz (init_rotation pc1)).

(** The pose-mutating calls a client can issue, and their effect. *)
Inductive Mutation : Type :=
| SetRotX (angle : R)
| SetRotY (angle : R)
| SetRotZ (angle : R)
| SetRotations (x y z : R)
| SetTransX (val : R)
| SetTransY (val : R)
| SetTransZ (val : R)
| SetTranslations (x y z : R)
| ResetPerspective.

Definition apply_mutation (pc : PointCloud) (m : Mutation) : PointCloud :=
  match m with
  | SetRotX a => set_rot_x pc a
  | SetRotY a => set_rot_y pc a
  | SetRotZ a => set_rot_z pc a
  | SetRotations x y z => set_rotations pc x y z
  | SetTransX v => set_trans_x pc v
  | SetTransY v => set_trans_y pc v
  | SetTransZ v => set_trans_z pc v
  | SetTranslations x y z => set_translations pc x y z
  | ResetPerspective => reset_perspective pc
  end.

Definition run (pc : PointCloud) (ms : list Mutation) : PointCloud :=
  fold_left apply_mutation ms pc.

(** ** Geometry computed at load time *)

(** [np.sum(points[:, i])] for the axis selected by [axis]. *)
Definition np_sum_axis (axis : Point3D -> R) (pts : list Point3D) : R :=
  fold_right (fun p acc => axis p + acc) 0 pts.

(** [tuple(np.sum(points[:, i]) / len(points) for i in range(3))].
    On an empty array numpy divides zero by zero and yields nan: [None]. *)
Definition compute_center (pts : list Point3D) : option Point3D :=
  match pts with
  | [] => None
  | _ :: _ =>
      let n := INR (length pts) in
      Some (np_sum_axis px pts / n, np_sum_axis py pts / n,
            np_sum_axis pz pts / n)
  end.

Definition vmin (a b : Point3D) : Point3D :=
  (Rmin (px a) (px b), Rmin (py a) (py b), Rmin (pz a) (pz b)).
Definition vmax (a b : Point3D) : Point3D :=
  (Rmax (px a) (px b), Rmax (py a) (py b), Rmax (pz a) (pz b)).

(** [np.amin(points, axis=0)] / [np.amax(points, axis=0)]: a zero-size
    array has no identity for the reduction and raises [ValueError]. *)
Definition np_amin (pts : list Point3D) : result Point3D :=
  match pts with
  | [] => Raise ValueError
  | p :: ps => Ok (fold_left vmin ps p)
  end.

Definition np_amax (pts : list Point3D) : result Point3D :=
  match pts with
  | [] => Raise ValueError
  | p :: ps => Ok (fold_left vmax ps p)
  end.

Definition calculate_init_translation (cfg : Config)
  (center mins maxs : Point3D) : Point3D :=
  let zoom := Rmin (np_linalg_norm (vsub maxs mins)) (far_plane cfg * (9 / 10)) in
  vneg (vadd center (0, 0, zoom)).

(** ** numpy array helpers used by the colour code *)

(** Index normalisation of numpy fancy indexing on an axis of length [n]:
    negative indices count from the end, anything else outside raises. *)
Definition np_index (n : nat) (i : Z) : result nat :=
  if ((0 <=? i) && (i <? Z.of_nat n))%Z then Ok (Z.to_nat i)
  else if ((- Z.of_nat n <=? i) && (i <? 0))%Z then Ok (Z.to_nat (i + Z.of_nat n))
  else Raise IndexError.

Definition np_eye_row (n i : nat) : list R :=
  map (fun k => if Nat.eqb i k then 1 else 0) (seq 0 n).

(** [np.eye(n)] *)
Definition np_eye (n : nat) : list (list R) :=
  map (np_eye_row n) (seq 0 n).

(** [rows[idx]] with an integer index array. *)
Definition np_take (rows : list (list R)) (idx : list Z) : result (list (list R)) :=
  mapM (fun i => j <- np_index (length rows) i ;; Ok (nth j rows [])) idx.

Definition np_dot_row (row : list R) (m : list RGB) : RGB :=
  fold_right (fun ac acc => vadd (vscale (snd ac) (fst ac)) acc) vzero
    (combine row m).

(** [np.dot(a, m)] for [a] of shape [(L, k)] and [m] of shape [(M, 3)]:
    the inner dimensions must agree. *)
Definition np_dot (k : nat) (a : list (list R)) (m : list RGB)
  : result (list RGB) :=
  if Nat.eqb k (length m) then Ok (map (fun row => np_dot_row row m) a)
  else Raise ValueError.

Fixpoint zip_add (a b : list RGB) : list RGB :=
  match a, b with
  | x :: a', y :: b' => vadd x y :: zip_add a' b'
  | _, _ => []
  end.

(** [a + b] on arrays of shapes [(L, 3)] and [(M, 3)], with numpy's
    broadcasting of a length-one leading axis. *)
Definition np_add (a b : list RGB) : result (list RGB) :=
  if Nat.eqb (length a) (length b) then Ok (zip_add a b)
  else match a, b with
       | [x], _ => Ok (map (fun y => vadd x y) b)
       | _, [y] => Ok (map (fun x => vadd x y) a)
       | _, _ => Raise ValueError
       end.

(** [np.ones_like(points) * np.array(color)]: the colour list broadcasts
    against the last axis, so it must have one or three entries. *)
Definition ones_like_times (pts : list Point3D) (color : list R)
  : result (list RGB) :=
  match color with
  | [c] => Ok (map (fun _ => (1 * c, 1 * c, 1 * c)) pts)
  | [r; g; b] => Ok (map (fun _ => (1 * r, 1 * g, 1 * b)) pts)
  | _ => Raise ValueError
  end.

(** Truth value of an [(N, 3)] array: an empty array is false, an array
    with more than one element has no truth value.  [3 * N] is never one. *)
Definition np_truth (a : list RGB) : result bool :=
  match a with
  | [] => Ok false
  | _ :: _ => Raise ValueError
  end.

Fixpoint unique_insert (v : Z) (acc : list (Z * nat)) : list (Z * nat) :=
  match acc with
  | [] => [(v, 1%nat)]
  | (u, c) :: acc' =>
      if (v <? u)%Z then (v, 1%nat) :: (u, c) :: acc'
      else if (v =? u)%Z then (u, S c) :: acc'
      else (u, c) :: unique_insert v acc'
  end.

(** [zip( *np.unique(a, return_counts=True))]: the sorted distinct values,
    each with its number of occurrences. *)
Definition np_unique_counts (a : list Z) : list (Z * nat) :=
  fold_right unique_insert [] a.

(** ** Methods of [PointCloud] that read the arrays *)

Definition colorless (pc : PointCloud) : bool :=
  match colors pc with
  | None => true
  | Some _ => false
  end.

Definition label_colors (pc : PointCloud) : result (option (list RGB)) :=
  match labels pc with
  | Some ls =>
      label_one_hot <- np_take (np_eye (length (label_definition pc))) ls ;;
      match label_color_map pc with
      | None => Raise TypeError
      | Some lcm =>
          cols <- np_dot (length (label_definition pc)) label_one_hot lcm ;;
          match mix_ratio pc with
          | None => Raise AttributeError
          | Some mix =>
              match colors pc with
              | None => Raise TypeError
              | Some cs =>
                  out <- np_add (map (fun c => vscale c mix) cols)
                           (map (fun c => vscale c (1 - mix)) cs) ;;
                  Ok (Some out)
              end
          end
      end
  | None => Ok (colors pc)
  end.

Definition int2label (pc : PointCloud) : option (list (Z * string)) :=
  Some (fold_left (fun d li => dict_set Z.eqb d (snd li) (fst li))
          (label_definition pc) []).

Definition count_step (i2l : list (Z * string))
  (counter : result (list (string * nat))) (ic : Z * nat)
  : result (list (string * nat)) :=
  c <- counter ;;
  match dict_get Z.eqb i2l (fst ic) with
  | None => Raise KeyError
  | Some name => Ok (dict_set String.eqb c name (snd ic))
  end.

Definition label_counts (pc : PointCloud)
  : result (option (list (string * nat))) :=
  match labels pc, label_definition pc with
  | Some ls, _ :: _ =>
      let counter :=
        fold_left (fun d k => dict_set String.eqb d k 0%nat)
          (dict_keys (label_definition pc)) [] in
      let uniq := np_unique_counts ls in
      match int2label pc with
      | None => Raise AttributeError
      | Some i2l =>
          c <- fold_left (count_step i2l) uniq (Ok counter) ;;
          Ok (Some c)
      end
  | _, _ => Ok None
  end.

Definition get_no_of_colors (pc : PointCloud) : result nat :=
  match colors pc with
  | None => Ok 0%nat
  | Some cs =>
      t <- np_truth cs ;;
      if t then Ok (length cs) else Ok 0%nat
  end.

(** [create_buffers]: the three names are generated first, then the list
    of (data, vbo) pairs is built, which evaluates [label_colors], then the
    loop uploads each array ([None] has no [nbytes]). *)
Definition create_buffers (pc : PointCloud) (gl : GLState)
  : result PointCloud * GLState :=
  let (names, gl1) := glGenBuffers3 gl in
  let pc1 := with_vbos pc names in
  match label_colors pc1 with
  | Raise e => (Raise e, gl1)
  | Ok lc =>
      let gl2 := glBufferData (fst (fst names)) (points pc1) gl1 in
      match colors pc1 with
      | None => (Raise AttributeError, gl2)
      | Some cs =>
          let gl3 := glBufferData (snd (fst names)) cs gl2 in
          match lc with
          | None => (Raise AttributeError, gl3)
          | Some l => (Ok pc1, glBufferData (snd names) l gl3)
          end
      end
  end.

(** ** Construction *)

Section Construction.

(** [utils.color.get_distinct_colors]: the palette generator. *)
Variable get_distinct_colors : nat -> list RGB.

(** The colour ramp applied to a height between the cloud's extremes. *)
Variable height_ramp : R -> R -> R -> RGB.

(** Modelled from the spec: [utils.color.colorize_points_with_height] is
    not part of this file; it maps each point's height (third coordinate)
    through a continuous colour ramp spanning the cloud's min/max height. *)
Definition colorize_points_with_height (pts : list Point3D) (zmin zmax : R)
  : list RGB :=
  map (fun p => height_ramp (pz p) zmin zmax) pts.

(** The [if self.colorless: ...] block of [__init__]. *)
Definition fill_colors (cfg : Config) (pc : PointCloud) : result PointCloud :=
  if colorless pc then
    if COLORLESS_COLORIZE cfg then
      Ok (with_colors pc
            (Some (colorize_points_with_height (points pc)
                     (pz (pcd_mins pc)) (pz (pcd_maxs pc)))))
    else
      c <- ones_like_times (points pc) (COLORLESS_COLOR cfg) ;;
      Ok (with_colors pc (Some c))
  else Ok pc.

(** [PointCloud.__init__].  A raised exception leaves no object; the
    OpenGL state reached so far is returned alongside. *)
Definition PointCloud_init (cfg : Config) (gl : GLState)
  (path : string) (points : list Point3D)
  (label_definition : list (string * Z))
  (colors : option (list RGB))
  (segmentation_labels : option (list Z))
  (init_translation : option Point3D)
  (init_rotation : option Rotations3D)
  (write_buffer : bool) : result PointCloud * GLState :=
  let colors0 :=
    match colors with
    | Some (c :: cs) => Some (c :: cs)
    | _ => None
    end in
  let labels0 := if SEGMENTATION cfg then segmentation_labels else None in
  let lcm :=
    if SEGMENTATION cfg
    then Some (get_distinct_colors (length label_definition)) else None in
  let mix :=
    if SEGMENTATION cfg then Some (label_color_mix_ratio cfg) else None in
  match compute_center points, np_amin points, np_amax points with
  | Some center, Ok mins, Ok maxs =>
      let it :=
        match init_translation with
        | Some t => t
        | None => calculate_init_translation cfg center mins maxs
        end in
      let ir :=
        match init_rotation with
        | Some r => r
        | None => (0, 0, 0)
        end in
      let pc :=
        mkPointCloud path points colors0 label_definition labels0 lcm mix
          None center mins maxs it ir
          (px it) (py it) (pz it) (px ir) (py ir) (pz ir) in
      match fill_colors cfg pc with
      | Raise e => (Raise e, gl)
      | Ok pc1 =>
          if write_buffer then create_buffers pc1 gl else (Ok pc1, gl)
      end
  | _, _, _ => (Raise ValueError, gl)
  end.

(** The object as it stands when [__init__] reaches the colour fallback
    (used to state facts about the constructor). *)
Definition pre_color_cloud (cfg : Config) (path : string)
  (pts : list Point3D) (ld : list (string * Z))
  (cols : option (list RGB)) (segl : option (list Z))
  (it : option Point3D) (ir : option Rotations3D)
  (c mins maxs : Point3D) : PointCloud :=
  let it0 := match it with
             | Some t => t
             | None => calculate_init_translation cfg c mins maxs
             end in
  let ir0 := match ir with Some r => r | None => (0, 0, 0) end in
  mkPointCloud path pts
    match cols with Some (x :: xs) => Some (x :: xs) | _ => None end
    ld
    (if SEGMENTATION cfg then segl else None)
    (if SEGMENTATION cfg
     then Some (get_distinct_colors (length ld)) else None)
    (if SEGMENTATION cfg then Some (label_color_mix_ratio cfg) else None)
    None c mins maxs it0 ir0
    (px it0) (py it0) (pz it0) (px ir0) (py ir0) (pz ir0).

End Construction.

(** ** Predicates used in the statements *)

(** Every rotation component lies in [0, 360). *)
Definition rot_in_range (r : Rotations3D) : Prop :=
  0 <= px r < 360 /\ 0 <= py r < 360 /\ 0 <= pz r < 360.

(** Every rotation component lies in the closed interval [0, 360].  A
    float remainder of a tiny negative angle rounds up to 360 itself, so
    this, not the half-open interval, is what the setters keep. *)
Definition rot_in_closed_range (r : Rotations3D) : Prop :=
  0 <= px r <= 360 /\ 0 <= py r <= 360 /\ 0 <= pz r <= 360.

(** ** Sample inputs *)

Definition sample_config : Config :=
  mkConfig 10 false (1 / 2) false [1 / 2; 1 / 2; 1 / 2] false 1.

Definition sample_seg_config : Config :=
  mkConfig 10 true (3 / 10) false [1 / 2; 1 / 2; 1 / 2] false 1.

Definition sample_palette (n : nat) : list RGB :=
  map (fun k => (INR k, 0, 1)) (seq 0 n).

Definition sample_ramp (h zmin zmax : R) : RGB := (h, zmin, zmax).

Definition sample_cloud : PointCloud :=
  mkPointCloud "cloud.pcd" [(0, 0, 0)] (Some [(1 / 2, 1 / 2, 1 / 2)]) []
    None None None None (0, 0, 0) (0, 0, 0) (0, 0, 0) (1, 2, 3) (0, 0, 0)
    1 2 3 0 0 0.

(** ** The specification's wording, for comparison with the code *)

(** "arithmetic mean" of a sequence of numbers. *)
Definition arithmetic_mean (xs : list R) : R :=
  fold_right Rplus 0 xs / INR (length xs).

(** "centroid(points): arithmetic mean per axis". *)
Definition centroid_spec (pts : list Point3D) : Point3D :=
  (arithmetic_mean (map px pts), arithmetic_mean (map py pts),
   arithmetic_mean (map pz pts)).

(** "blended[i] = mix_ratio * label_color_map[labels[i]]
                  + (1 - mix_ratio) * base_colors[i]". *)
Definition blend_spec (mix : R) (label_color base_color : RGB) : RGB :=
  (mix * px label_color + (1 - mix) * px base_color,
   mix * py label_color + (1 - mix) * py base_color,
   mix * pz label_color + (1 - mix) * pz base_color).

(** ** Rendering ([set_gl_background], [draw_pointcloud])

    The fixed-function state the two methods touch.  The modelview matrix
    is kept as the map it applies to a vertex; a call that multiplies the
    matrix on the right composes its map in front.  [array_buffer] is the
    buffer bound to GL_ARRAY_BUFFER (0 for none); a pointer call latches
    that binding; [glDrawArrays] records which buffers feed the enabled
    arrays and how many points are drawn. *)

Record GLRender : Type := mkRender {
  modelview : Point3D -> Point3D;
  gl_point_size : R;
  array_buffer : nat;
  vertex_array : bool;
  color_array : bool;
  vertex_pointer : nat;
  color_pointer : nat;
  draws : list (option nat * option nat * nat)
}.

Inductive Axis : Type := AxisX | AxisY | AxisZ.

(** Rotation by [angle] degrees about a coordinate axis (right-handed). *)
Definition rotate (angle : R) (axis : Axis) (p : Point3D) : Point3D :=
  let t := angle * PI / 180 in
  match axis with
  | AxisX => (px p, py p * cos t - pz p * sin t, py p * sin t + pz p * cos t)
  | AxisY => (px p * cos t + pz p * sin t, py p, - px p * sin t + pz p * cos t)
  | AxisZ => (px p * cos t - py p * sin t, px p * sin t + py p * cos t, pz p)
  end.

Definition with_modelview (st : GLRender) (m : Point3D -> Point3D) : GLRender :=
  mkRender m (gl_point_size st) (array_buffer st) (vertex_array st)
    (color_array st) (vertex_pointer st) (color_pointer st) (draws st).

Definition glTranslate (v : Point3D) (st : GLRender) : GLRender :=
  with_modelview st (fun p => modelview st (vadd p v)).

(** [glRotate(angle, 1, 0, 0)] and its two siblings. *)
Definition glRotate (angle : R) (axis : Axis) (st : GLRender) : GLRender :=
  with_modelview st (fun p => modelview st (rotate angle axis p)).

Definition glPointSize (s : R) (st : GLRender) : GLRender :=
  mkRender (modelview st) s (array_buffer st) (vertex_array st)
    (color_array st) (vertex_pointer st) (color_pointer st) (draws st).

Definition glBindBuffer (vbo : nat) (st : GLRender) : GLRender :=
  mkRender (modelview st) (gl_point_size st) vbo (vertex_array st)
    (color_array st) (vertex_pointer st) (color_pointer st) (draws st).

Definition glEnableVertexArray (on : bool) (st : GLRender) : GLRender :=
  mkRender (modelview st) (gl_point_size st) (array_buffer st) on
    (color_array st) (vertex_pointer st) (color_pointer st) (draws st).

Definition glEnableColorArray (on : bool) (st : GLRender) : GLRender :=
  mkRender (modelview st) (gl_point_size st) (array_buffer st)
    (vertex_array st) on (vertex_pointer st) (color_pointer st) (draws st).

Definition glVertexPointer (st : GLRender) : GLRender :=
  mkRender (modelview st) (gl_point_size st) (array_buffer st)
    (vertex_array st) (color_array st) (array_buffer st) (color_pointer st)
    (draws st).

Definition glColorPointer (st : GLRender) : GLRender :=
  mkRender (modelview st) (gl_point_size st) (array_buffer st)
    (vertex_array st) (color_array st) (vertex_pointer st) (array_buffer st)
    (draws st).

Definition glDrawArrays (count : nat) (st : GLRender) : GLRender :=
  mkRender (modelview st) (gl_point_size st) (array_buffer st)
    (vertex_array st) (color_array st) (vertex_pointer st) (color_pointer st)
    (draws st ++
     [(if vertex_array st then Some (vertex_pointer st) else None,
       if color_array st then Some (color_pointer st) else None,
       count)]).

Definition point_size (cfg : Config) : R := point_size_value cfg.

Definition color_with_label (cfg : Config) : bool := color_with_label_flag cfg.

(** [np.add(pcd_mins, np.subtract(pcd_maxs, pcd_mins) / 2)] *)
Definition pcd_center (pc : PointCloud) : Point3D :=
  let d := vsub (pcd_maxs pc) (pcd_mins pc) in
  vadd (pcd_mins pc) (px d / 2, py d / 2, pz d / 2).

Definition set_gl_background (cfg : Config) (pc : PointCloud) (st : GLRender)
  : GLRender :=
  let st1 := glTranslate (trans_x pc, trans_y pc, trans_z pc) st in
  let c := pcd_center pc in
  let st2 := glTranslate c st1 in
  let st3 := glRotate (rot_x pc) AxisX st2 in
  let st4 := glRotate (rot_y pc) AxisY st3 in
  let st5 := glRotate (rot_z pc) AxisZ st4 in
  let st6 := glTranslate (vscale c (-1)) st5 in
  glPointSize (point_size cfg) st6.

(** [draw_pointcloud]; the buffer attributes exist only after
    [create_buffers]. *)
Definition draw_pointcloud (cfg : Config) (pc : PointCloud) (st : GLRender)
  : result unit * GLRender :=
  let st1 := set_gl_background cfg pc st in
  match vbos pc with
  | None => (Raise AttributeError, st1)
  | Some (position_vbo, color_vbo, label_vbo) =>
      let st2 := glVertexPointer
                   (glEnableVertexArray true (glBindBuffer position_vbo st1)) in
      let chosen := if color_with_label cfg then label_vbo else color_vbo in
      let st3 := glColorPointer
                   (glEnableColorArray true (glBindBuffer chosen st2)) in
      let st4 := glDrawArrays (get_no_of_points pc) st3 in
      (Ok tt,
       glBindBuffer 0
         (glEnableColorArray false (glEnableVertexArray false st4)))
  end.

(** The array a buffer name currently holds: the latest upload under it. *)
Fixpoint gl_buffer_data (store : list (nat * list Point3D)) (vbo : nat)
  : option (list Point3D) :=
  match store with
  | [] => None
  | (n, data) :: rest =>
      match gl_buffer_data rest vbo with
      | Some later => Some later
      | None => if Nat.eqb n vbo then Some data else None
      end
  end.

(** ** The first two rows of [print_details] *)

Inductive Styled : Type :=
| green (n : nat)
| red (n : nat)
| yellow_None.

(** [green(len(points)) if len(points) > 0 else red(len(points))] *)
Definition details_points_cell (pc : PointCloud) : Styled :=
  if (0 <? length (points pc))%nat then green (length (points pc))
  else red (length (points pc)).

(** [yellow("None") if colorless else green(len(colors))
     if len(colors) == len(points) else red(len(colors))] *)
Definition details_colors_cell (pc : PointCloud) : Styled :=
  match colors pc with
  | None => yellow_None
  | Some cs =>
      if Nat.eqb (length cs) (length (points pc)) then green (length cs)
      else red (length cs)
  end.

(** Componentwise order on triples. *)
Definition vle (a b : Point3D) : Prop :=
  px a <= px b /\ py a <= py b /\ pz a <= pz b.

Definition sample_render : GLRender :=
  mkRender (fun p => p) 1 0 false false 0 0 [].

(** Two objects that agree on everything except the live pose. *)
Definition same_data (a b : PointCloud) : Prop :=
  path a = path b /\ points a = points b /\ colors a = colors b /\
  label_definition a = label_definition b /\ labels a = labels b /\
  label_color_map a = label_color_map b /\ mix_ratio a = mix_ratio b /\
  vbos a = vbos b /\ center a = center b /\ pcd_mins a = pcd_mins b /\
  pcd_maxs a = pcd_maxs b /\ init_translation a = init_translation b /\
  init_rotation a = init_rotation b.

(** The map [set_gl_background] puts in front of the modelview matrix:
    shift the pivot to the origin, rotate about z, then y, then x, shift
    back, translate. *)
Definition pose_transform (pc : PointCloud) (v : Point3D) : Point3D :=
  vadd
    (vadd
       (rotate (rot_x pc) AxisX
          (rotate (rot_y pc) AxisY
             (rotate (rot_z pc) AxisZ
                (vadd v (vscale (pcd_center pc) (-1))))))
       (pcd_center pc))
    (trans_x pc, trans_y pc, trans_z pc).

(** * Properties *)

(** ** Floor-mod *)

Lemma py_mod_range (x m : R) : 0 < m -> 0 <= py_mod x m < m.
Proof.
  intros Hm. unfold py_mod.
  destruct (Zfloor_bound (x / m)) as [Hlo Hhi].
  assert (Hx : x = x / m * m) by (field; lra).
  set (q := x / m) in *. set (f := IZR (Zfloor q)) in *.
  split; nra.
Qed.

Lemma py_mod_eq (x m : R) (k : Z) :
  0 < m -> IZR k * m <= x < IZR k * m + m -> py_mod x m = x - m * IZR k.
Proof.
  intros Hm [Hlo Hhi]. unfold py_mod.
  replace (Zfloor (x / m)) with k; [reflexivity|].
  symmetry. apply Zfloor_eq.
  assert (Hx : x = x / m * m) by (field; lra).
  set (q := x / m) in *.
  split.
  - apply Rmult_le_reg_r with m; lra.
  - apply Rmult_lt_reg_r with m; lra.
Qed.

Lemma py_mod_neg30 : py_mod (-30) 360 = 330.
Proof. rewrite (py_mod_eq (-30) 360 (-1)); lra. Qed.

Lemma py_mod_725 : py_mod 725 360 = 5.
Proof. rewrite (py_mod_eq 725 360 2); lra. Qed.

(** ** The pose state machine *)

Lemma apply_mutation_init (pc : PointCloud) (m : Mutation) :
  init_translation (apply_mutation pc m) = init_translation pc /\
  init_rotation (apply_mutation pc m) = init_rotation pc.
Proof. destruct m; split; reflexivity. Qed.

Lemma run_init (ms : list Mutation) : forall pc,
  init_translation (run pc ms) = init_translation pc /\
  init_rotation (run pc ms) = init_rotation pc.
Proof.
  induction ms as [|m ms IH]; intros pc; [split; reflexivity|].
  unfold run in *. cbn [fold_left].
  destruct (IH (apply_mutation pc m)) as [Ht Hr].
  destruct (apply_mutation_init pc m) as [Ht' Hr'].
  split; congruence.
Qed.

Lemma reset_perspective_pose (pc : PointCloud) :
  get_translation (reset_perspective pc) = init_rotation pc /\
  get_rotations (reset_perspective pc) = init_rotation pc.
Proof.
  unfold get_translation, get_rotations, reset_perspective; cbn.
  destruct (init_rotation pc) as [[x y] z]; split; reflexivity.
Qed.

Lemma reset_after_run (pc : PointCloud) (ms : list Mutation) :
  get_translation (reset_perspective (run pc ms)) = init_rotation pc /\
  get_rotations (reset_perspective (run pc ms)) = init_rotation pc.
Proof.
  destruct (reset_perspective_pose (run pc ms)) as [Ht Hr].
  destruct (run_init ms pc) as [_ Hi].
  split; congruence.
Qed.

Lemma py_mod_closed (a : R) : 0 <= py_mod a 360 <= 360.
Proof.
  destruct (py_mod_range a 360) as [H0 H1]; [lra|]. split; lra.
Qed.

Lemma apply_mutation_rot_in_closed_range (pc : PointCloud) (m : Mutation) :
  rot_in_closed_range (init_rotation pc) ->
  rot_in_closed_range (get_rotations pc) ->
  rot_in_closed_range (get_rotations (apply_mutation pc m)).
Proof.
  intros Hi (Hx & Hy & Hz).
  destruct m; cbn; unfold rot_in_closed_range; cbn;
    repeat split;
    try (apply py_mod_closed);
    try (apply Hx); try (apply Hy); try (apply Hz);
    try (apply Hi).
Qed.

Lemma run_rot_in_closed_range (ms : list Mutation) : forall pc,
  rot_in_closed_range (init_rotation pc) ->
  rot_in_closed_range (get_rotations pc) ->
  rot_in_closed_range (get_rotations (run pc ms)).
Proof.
  induction ms as [|m ms IH]; intros pc Hi Hr; [exact Hr|].
  unfold run in *. cbn [fold_left]. apply IH.
  - destruct (apply_mutation_init pc m) as [_ E]. rewrite E. exact Hi.
  - apply apply_mutation_rot_in_closed_range; assumption.
Qed.

(** C1 (defect in the code): [reset_perspective] is meant to restore the
    pose recorded at load time, but it assigns [init_rotation] to the
    translation.  On a cloud loaded with initial translation (1, 2, 3) and
    the default rotation, translating to (4, 5, 6) and resetting leaves the
    translation at (0, 0, 0), not at the recorded (1, 2, 3). *)
Theorem reset_perspective_translation_slip :
  exists pc : PointCloud,
    PointCloud_init sample_palette sample_ramp sample_config gl_empty
      "cloud.pcd"%string [(0, 0, 0)] [] None None (Some (1, 2, 3)) None false
    = (Ok pc, gl_empty) /\
    init_translation pc = (1, 2, 3) /\
    init_rotation pc = (0, 0, 0) /\
    get_rotations (reset_perspective (set_translations pc 4 5 6))
    = init_rotation pc /\
    get_translation (reset_perspective (set_translations pc 4 5 6))
    = (0, 0, 0) /\
    get_translation (reset_perspective (set_translations pc 4 5 6))
    <> init_translation pc.
Proof.
  eexists. split; [reflexivity|]. cbn.
  repeat split.
  intros H. injection H as H1 H2 H3. lra.
Qed.

(** C4, as stated, fails: the constructor stores a supplied initial rotation
    without reducing it, and a setter rewrites only its own component.  A
    cloud loaded with rotation (400, 0, 0) still has [rot_x = 400] after
    [set_rot_y 10]. *)
Lemma rotation_range_counterexample :
  exists pc : PointCloud,
    PointCloud_init sample_palette sample_ramp sample_config gl_empty
      "cloud.pcd"%string [(0, 0, 0)] [] None None None (Some (400, 0, 0)) false
    = (Ok pc, gl_empty) /\
    rot_x (run pc [SetRotY 10]) = 400 /\
    ~ rot_in_range (get_rotations (run pc [SetRotY 10])).
Proof.
  eexists. split; [reflexivity|]. cbn. split; [reflexivity|].
  unfold rot_in_range; cbn. lra.
Qed.

(** C4 (amended): every rotation setter stores, in the component it sets,
    its input reduced by floor-mod 360 (-30 is stored as 330 and 725 as 5),
    a value in the closed interval [0, 360]; and after any sequence of
    mutations (setters and reset) every stored rotation component lies in
    [0, 360], provided the rotation recorded at load time and the current
    rotation did.  The interval is closed because the float remainder of a
    tiny negative angle rounds to 360 itself. *)
Theorem rotation_setters_floor_mod (pc : PointCloud) :
  (forall a, rot_x (set_rot_x pc a) = py_mod a 360) /\
  (forall a, rot_y (set_rot_y pc a) = py_mod a 360) /\
  (forall a, rot_z (set_rot_z pc a) = py_mod a 360) /\
  (forall x y z,
      get_rotations (set_rotations pc x y z)
      = (py_mod x 360, py_mod y 360, py_mod z 360)) /\
  rot_x (set_rot_x pc (-30)) = 330 /\
  rot_x (set_rot_x pc 725) = 5 /\
  (forall a, 0 <= py_mod a 360 <= 360) /\
  (forall ms,
      rot_in_closed_range (init_rotation pc) ->
      rot_in_closed_range (get_rotations pc) ->
      rot_in_closed_range (get_rotations (run pc ms))).
Proof.
  split; [reflexivity|]. split; [reflexivity|]. split; [reflexivity|].
  split; [reflexivity|].
  split; [cbn; apply py_mod_neg30|].
  split; [cbn; apply py_mod_725|].
  split; [exact py_mod_closed|].
  intros ms Hi Hr. apply run_rot_in_closed_range; assumption.
Qed.

Lemma rotation_setters_floor_mod_witness :
  rot_in_closed_range (init_rotation sample_cloud) /\
  rot_in_closed_range (get_rotations sample_cloud) /\
  rot_in_closed_range
    (get_rotations
       (run sample_cloud
          [SetRotX (-30); SetTransX 7; ResetPerspective;
           SetRotations 725 10 (-1)])).
Proof.
  assert (H0 : rot_in_closed_range (0, 0, 0))
    by (unfold rot_in_closed_range; cbn; lra).
  split; [exact H0|]. split; [exact H0|].
  destruct (rotation_setters_floor_mod sample_cloud)
    as (_ & _ & _ & _ & _ & _ & _ & H).
  apply H; exact H0.
Defined.

(** ** Initial translation *)

Lemma np_linalg_norm_nonneg (v : Point3D) : 0 <= np_linalg_norm v.
Proof. unfold np_linalg_norm. apply sqrt_pos. Qed.

Lemma np_linalg_norm_z (z : R) : 0 <= z -> np_linalg_norm (0, 0, z) = z.
Proof.
  intros Hz. unfold np_linalg_norm; cbn.
  replace (0 * 0 + 0 * 0 + z * z) with (z * z) by ring.
  apply sqrt_square; exact Hz.
Qed.

Lemma zoom_bounds (cfg : Config) (mins maxs : Point3D) :
  0 < far_plane cfg ->
  0 <= Rmin (np_linalg_norm (vsub maxs mins)) (far_plane cfg * (9 / 10))
    <= far_plane cfg * (9 / 10).
Proof.
  intros Hf. split.
  - apply Rmin_glb; [apply np_linalg_norm_nonneg | lra].
  - apply Rmin_r.
Qed.

(** C5, as stated, fails: the bound holds for the zoom, not for the
    z-component of the result, which also carries the centre.  The cloud
    (0,0,0), (0,0,1000) has centre (0,0,500) and diagonal 1000; with
    far_plane = 10 the zoom clamps to 9 and the result's z is -509. *)
Lemma init_translation_z_counterexample :
  compute_center [(0, 0, 0); (0, 0, 1000)] = Some (0, 0, 500) /\
  np_amin [(0, 0, 0); (0, 0, 1000)] = Ok (0, 0, 0) /\
  np_amax [(0, 0, 0); (0, 0, 1000)] = Ok (0, 0, 1000) /\
  pz (calculate_init_translation sample_config (0, 0, 500)
        (0, 0, 0) (0, 0, 1000)) = - 509 /\
  ~ Rabs (pz (calculate_init_translation sample_config
                (0, 0, 500) (0, 0, 0) (0, 0, 1000)))
      <= far_plane sample_config * (9 / 10).
Proof.
  assert (Hz : pz (calculate_init_translation sample_config
                     (0, 0, 500) (0, 0, 0) (0, 0, 1000)) = - 509).
  { unfold calculate_init_translation, vsub; cbn.
    replace (0 - 0) with 0 by ring. replace (1000 - 0) with 1000 by ring.
    rewrite np_linalg_norm_z by lra.
    rewrite Rmin_right by lra. lra. }
  split.
  { unfold compute_center, np_sum_axis; cbn. repeat f_equal; lra. }
  split.
  { unfold np_amin, vmin; cbn. rewrite !Rmin_left by lra. reflexivity. }
  split.
  { unfold np_amax, vmax; cbn. rewrite !Rmax_right by lra. reflexivity. }
  split; [exact Hz|].
  rewrite Hz. cbn. unfold Rabs. destruct (Rcase_abs (- 509)); lra.
Qed.

(** C5 (amended): for all centre, extents and far_plane > 0,
    [calculate_init_translation] returns -(center + (0, 0, zoom)) with
    zoom = min(euclidean_norm(maxs - mins), far_plane * 0.9); it is the
    zoom, not the z-component of the result, that never exceeds
    far_plane * 0.9: the zoom lies in [0, far_plane * 0.9] even when the
    diagonal exceeds it. *)
Theorem calculate_init_translation_zoom
  (cfg : Config) (c mins maxs : Point3D) :
  0 < far_plane cfg ->
  let zoom := Rmin (np_linalg_norm (vsub maxs mins)) (far_plane cfg * (9 / 10)) in
  calculate_init_translation cfg c mins maxs
  = vneg (vadd c (0, 0, zoom)) /\
  calculate_init_translation cfg c mins maxs
  = (- px c, - py c, - (pz c + zoom)) /\
  0 <= zoom <= far_plane cfg * (9 / 10).
Proof.
  intros Hf zoom.
  pose proof (zoom_bounds cfg mins maxs Hf) as Hz. fold zoom in Hz.
  split; [reflexivity|].
  split.
  { unfold calculate_init_translation. fold zoom.
    destruct c as [[x y] z]. unfold vneg, vadd; cbn.
    repeat f_equal; ring. }
  exact Hz.
Qed.

Lemma calculate_init_translation_zoom_witness :
  0 < far_plane sample_config /\
  calculate_init_translation sample_config (0, 0, 0) (0, 0, 0) (0, 0, 1000)
  = (- 0, - 0, - (0 + Rmin (np_linalg_norm (vsub (0, 0, 1000) (0, 0, 0)))
                       (far_plane sample_config * (9 / 10)))).
Proof.
  assert (Hf : 0 < far_plane sample_config) by (cbn; lra).
  split; [exact Hf|].
  destruct (calculate_init_translation_zoom sample_config (0, 0, 0)
              (0, 0, 0) (0, 0, 1000) Hf) as (_ & H & _).
  exact H.
Defined.

(** ** Construction: what a completed [__init__] guarantees *)

Lemma fill_colors_ok (ramp : R -> R -> R -> RGB) (cfg : Config)
  (pc pc1 : PointCloud) :
  fill_colors ramp cfg pc = Ok pc1 ->
  exists cs,
    pc1 = with_colors pc (Some cs) /\
    (forall c, colors pc = Some c -> cs = c) /\
    (colors pc = None ->
     length cs = length (points pc) /\
     (COLORLESS_COLORIZE cfg = true ->
      cs = colorize_points_with_height ramp (points pc)
             (pz (pcd_mins pc)) (pz (pcd_maxs pc))) /\
     (COLORLESS_COLORIZE cfg = false ->
      ones_like_times (points pc) (COLORLESS_COLOR cfg) = Ok cs)).
Proof.
  unfold fill_colors, colorless.
  destruct (colors pc) as [c|] eqn:Ec.
  - intros H. injection H as <-. exists c. split.
    + destruct pc; cbn in *. subst. reflexivity.
    + split; [intros c' Hc'; congruence | discriminate].
  - destruct (COLORLESS_COLORIZE cfg).
    + intros H. injection H as <-. eexists. split; [reflexivity|].
      split; [discriminate|]. intros _. split.
      * unfold colorize_points_with_height. apply length_map.
      * split; [reflexivity | discriminate].
    + destruct (ones_like_times (points pc) (COLORLESS_COLOR cfg))
        as [cs|e] eqn:Eo; cbn; [|discriminate].
      intros H. injection H as <-. exists cs. split; [reflexivity|].
      split; [discriminate|]. intros _. split.
      * unfold ones_like_times in Eo.
        destruct (COLORLESS_COLOR cfg) as [|a [|b [|c [|d l]]]];
          try discriminate; injection Eo as <-; apply length_map.
      * split; [discriminate | reflexivity].
Qed.

Lemma create_buffers_generated (pc : PointCloud) (gl : GLState) :
  gl_generated (snd (create_buffers pc gl)) = (3 + gl_generated gl)%nat.
Proof.
  unfold create_buffers, glGenBuffers3.
  destruct (label_colors _) as [lc|e]; [|reflexivity].
  cbn [colors with_vbos].
  destruct (colors pc) as [cs|]; [|reflexivity].
  destruct lc; reflexivity.
Qed.

Lemma create_buffers_ok (pc pc1 : PointCloud) (gl gl' : GLState) :
  create_buffers pc gl = (Ok pc1, gl') ->
  exists names, pc1 = with_vbos pc names.
Proof.
  unfold create_buffers, glGenBuffers3.
  destruct (label_colors _) as [lc|e]; [|discriminate].
  cbn [colors with_vbos].
  destruct (colors pc) as [cs|]; [|discriminate].
  destruct lc; [|discriminate].
  intros H. injection H as <- _. eexists. reflexivity.
Qed.

Lemma create_buffers_no_labels (pc : PointCloud) (gl : GLState) (cs : list RGB) :
  labels pc = None -> colors pc = Some cs ->
  exists gl',
    create_buffers pc gl
    = (Ok (with_vbos pc (fst (glGenBuffers3 gl))), gl') /\
    gl_generated gl' = (3 + gl_generated gl)%nat /\
    In (snd (fst (fst (glGenBuffers3 gl))), cs) (gl_store gl').
Proof.
  intros Hl Hc. unfold create_buffers, glGenBuffers3, label_colors.
  cbn [labels colors with_vbos fst snd]. rewrite Hl, Hc.
  eexists. split; [reflexivity|]. split; [reflexivity|].
  cbn. rewrite !in_app_iff. left. right. left. reflexivity.
Qed.

Section InitFacts.
Variable get_distinct_colors : nat -> list RGB.
Variable height_ramp : R -> R -> R -> RGB.
Variables (cfg : Config) (gl : GLState) (path : string).
Variables (pts : list Point3D) (ld : list (string * Z)).
Variables (cols : option (list RGB)) (segl : option (list Z)).
Variables (it : option Point3D) (ir : option Rotations3D) (wb : bool).

Local Abbreviation init :=
  (PointCloud_init get_distinct_colors height_ramp cfg gl path
     pts ld cols segl it ir wb).
Local Abbreviation pre_cloud :=
  (pre_color_cloud get_distinct_colors cfg path pts ld cols segl it ir).

Lemma PointCloud_init_unfold :
  init =
  match compute_center pts, np_amin pts, np_amax pts with
  | Some c, Ok mins, Ok maxs =>
      match fill_colors height_ramp cfg (pre_cloud c mins maxs) with
      | Raise e => (Raise e, gl)
      | Ok pc1 => if wb then create_buffers pc1 gl else (Ok pc1, gl)
      end
  | _, _, _ => (Raise ValueError, gl)
  end.
Proof. reflexivity. Qed.

Lemma PointCloud_init_empty : pts = [] -> init = (Raise ValueError, gl).
Proof. intros E. rewrite PointCloud_init_unfold, E. reflexivity. Qed.

Lemma PointCloud_init_ok (pc : PointCloud) (gl' : GLState) :
  init = (Ok pc, gl') ->
  exists c mins maxs cs,
    compute_center pts = Some c /\
    np_amin pts = Ok mins /\
    np_amax pts = Ok maxs /\
    fill_colors height_ramp cfg (pre_cloud c mins maxs)
    = Ok (with_colors (pre_cloud c mins maxs) (Some cs)) /\
    (pc = with_colors (pre_cloud c mins maxs) (Some cs) \/
     exists names,
       pc = with_vbos (with_colors (pre_cloud c mins maxs) (Some cs))
              names).
Proof.
  rewrite PointCloud_init_unfold.
  destruct (compute_center pts) as [c|]; [|discriminate].
  destruct (np_amin pts) as [mins|]; [|discriminate].
  destruct (np_amax pts) as [maxs|]; [|discriminate].
  destruct (fill_colors _ _ _) as [pc1|e] eqn:Ef; [|discriminate].
  destruct (fill_colors_ok _ _ _ _ Ef) as (cs & -> & _).
  intros H. exists c, mins, maxs, cs.
  do 3 (split; [reflexivity|]). split; [exact Ef|].
  destruct wb.
  - destruct (create_buffers_ok _ _ _ _ H) as (names & ->).
    right. exists names. reflexivity.
  - injection H as <- _. left. reflexivity.
Qed.

End InitFacts.

Lemma ones_like_times_repeat (pts : list Point3D) (color : list R)
  (cs : list RGB) :
  ones_like_times pts color = Ok cs ->
  exists rgb, cs = repeat rgb (length pts) /\
    (forall r g b, color = [r; g; b] -> rgb = (1 * r, 1 * g, 1 * b)).
Proof.
  unfold ones_like_times.
  destruct color as [|a [|b [|c [|d l]]]]; try discriminate;
    intros H; injection H as <-; eexists; (split; [apply map_const|]);
    intros r g b' E; [discriminate|].
  injection E as -> -> ->. reflexivity.
Qed.

Lemma run_colors (ms : list Mutation) : forall pc,
  colors (run pc ms) = colors pc.
Proof.
  induction ms as [|m ms IH]; intros pc; [reflexivity|].
  unfold run in *. cbn [fold_left]. rewrite IH. destruct m; reflexivity.
Qed.

Section InitColors.
Variable get_distinct_colors : nat -> list RGB.
Variable height_ramp : R -> R -> R -> RGB.
Variables (cfg : Config) (gl : GLState) (path : string).
Variables (pts : list Point3D) (ld : list (string * Z)).
Variables (cols : option (list RGB)) (segl : option (list Z)).
Variables (it : option Point3D) (ir : option Rotations3D) (wb : bool).

Local Abbreviation init :=
  (PointCloud_init get_distinct_colors height_ramp cfg gl path
     pts ld cols segl it ir wb).

Lemma PointCloud_init_fields (pc : PointCloud) (gl' : GLState) :
  init = (Ok pc, gl') ->
  pts <> [] /\
  points pc = pts /\
  compute_center pts = Some (center pc) /\
  np_amin pts = Ok (pcd_mins pc) /\
  np_amax pts = Ok (pcd_maxs pc) /\
  exists cs,
    colors pc = Some cs /\ cs <> [] /\
    (forall x xs, cols = Some (x :: xs) -> cs = x :: xs) /\
    (cols = None \/ cols = Some [] ->
     length cs = length pts /\
     (COLORLESS_COLORIZE cfg = true ->
      cs = colorize_points_with_height height_ramp pts
             (pz (pcd_mins pc)) (pz (pcd_maxs pc))) /\
     (COLORLESS_COLORIZE cfg = false ->
      ones_like_times pts (COLORLESS_COLOR cfg) = Ok cs)).
Proof.
  intros H.
  destruct (PointCloud_init_ok _ _ _ _ _ _ _ _ _ _ _ _ _ _ H)
    as (c & mins & maxs & cs & Hc & Hmin & Hmax & Hf & Hpc).
  assert (Hne : pts <> []) by (intros E; rewrite E in Hc; discriminate).
  destruct (fill_colors_ok _ _ _ _ Hf) as (cs' & Hw & Hsome & Hnone).
  assert (cs' = cs) as ->.
  { apply (f_equal colors) in Hw. cbn in Hw. congruence. }
  cbn [colors points pcd_mins pcd_maxs pre_color_cloud] in Hsome, Hnone.
  assert (Hfields :
    points pc = pts /\ center pc = c /\ pcd_mins pc = mins /\
    pcd_maxs pc = maxs /\ colors pc = Some cs).
  { destruct Hpc as [-> | (names & ->)]; cbn; repeat split; reflexivity. }
  destruct Hfields as (Hp & Hce & Hmi & Hma & Hco).
  rewrite Hce, Hmi, Hma.
  do 5 (split; [assumption|]).
  exists cs. split; [exact Hco|].
  assert (Hlen : cols = None \/ cols = Some [] ->
                 length cs = length pts /\
                 (COLORLESS_COLORIZE cfg = true ->
                  cs = colorize_points_with_height height_ramp pts
                         (pz mins) (pz maxs)) /\
                 (COLORLESS_COLORIZE cfg = false ->
                  ones_like_times pts (COLORLESS_COLOR cfg) = Ok cs)).
  { intros Habs. apply Hnone. destruct Habs as [-> | ->]; reflexivity. }
  split; [|split; [|exact Hlen]].
  - destruct cols as [[|x xs]|].
    + destruct Hlen as (Hl & _); [right; reflexivity|].
      intros E; rewrite E in Hl. destruct pts; [congruence|discriminate].
    + rewrite (Hsome _ eq_refl). discriminate.
    + destruct Hlen as (Hl & _); [left; reflexivity|].
      intros E; rewrite E in Hl. destruct pts; [congruence|discriminate].
  - intros x xs E. rewrite E in Hsome. apply Hsome. reflexivity.
Qed.

End InitColors.

(** C2, as stated, fails: [__init__] never compares the two lengths.  With
    three points and two colours construction completes, keeps the two
    colours and creates the three buffers; with labels present the blend
    does raise, but only after the buffers were generated. *)
Lemma colors_length_mismatch_counterexample :
  (exists pc gl',
      PointCloud_init sample_palette sample_ramp sample_config gl_empty
        "cloud.pcd"%string [(0, 0, 0); (1, 0, 0); (0, 1, 0)] []
        (Some [(1, 0, 0); (0, 1, 0)]) None None None true
      = (Ok pc, gl') /\
      length (points pc) = 3%nat /\
      option_map (@length RGB) (colors pc) = Some 2%nat /\
      gl_generated gl' = 3%nat) /\
  (exists gl',
      PointCloud_init sample_palette sample_ramp sample_seg_config gl_empty
        "cloud.pcd"%string [(0, 0, 0); (1, 0, 0); (0, 1, 0)]
        [("car"%string, 0%Z)]
        (Some [(1, 0, 0); (0, 1, 0)]) (Some [0%Z; 0%Z; 0%Z]) None None true
      = (Raise ValueError, gl') /\
      gl_generated gl' = 3%nat).
Proof.
  split.
  - eexists. eexists. split; [reflexivity|]. cbn. repeat split.
  - eexists. split; [reflexivity|]. reflexivity.
Qed.

(** C2 (amended): the constructor performs no length check on the colours.
    For every non-empty point set and every non-empty colours array, of
    whatever length, construction completes whenever segmentation is
    disabled or no labels are supplied; it stores the colours unchanged and
    generates the three buffers when [write_buffer] is set.  With
    [write_buffer] set the three buffers are generated in every case,
    whether or not the blend raises afterwards. *)
Theorem init_keeps_colors_of_any_length
  (get_distinct_colors : nat -> list RGB) (height_ramp : R -> R -> R -> RGB)
  (cfg : Config) (gl : GLState) (path : string)
  (p : Point3D) (ps : list Point3D) (ld : list (string * Z))
  (c : RGB) (cs : list RGB) (segl : option (list Z))
  (it : option Point3D) (ir : option Rotations3D) :
  (forall wb,
      SEGMENTATION cfg = false \/ segl = None ->
      exists pc gl',
        PointCloud_init get_distinct_colors height_ramp cfg gl path
          (p :: ps) ld (Some (c :: cs)) segl it ir wb = (Ok pc, gl') /\
        points pc = p :: ps /\
        colors pc = Some (c :: cs) /\
        gl_generated gl'
        = if wb then (3 + gl_generated gl)%nat else gl_generated gl) /\
  gl_generated
    (snd (PointCloud_init get_distinct_colors height_ramp cfg gl path
            (p :: ps) ld (Some (c :: cs)) segl it ir true))
  = (3 + gl_generated gl)%nat.
Proof.
  split.
  - intros wb Hseg. rewrite PointCloud_init_unfold.
    cbn [compute_center np_amin np_amax].
    unfold fill_colors, colorless. cbn [colors pre_color_cloud].
    destruct wb.
    + match goal with
      | |- context [create_buffers ?pc0 ?g] =>
          destruct (create_buffers_no_labels pc0 g (c :: cs))
            as (gl' & E & Hg & _)
      end.
      * unfold pre_color_cloud; cbn [labels].
        destruct Hseg as [-> | ->]; [reflexivity|].
        destruct (SEGMENTATION cfg); reflexivity.
      * reflexivity.
      * rewrite E. eexists. exists gl'. split; [reflexivity|].
        cbn. repeat split. exact Hg.
    + eexists. eexists. split; [reflexivity|]. cbn. repeat split.
  - rewrite PointCloud_init_unfold.
    cbn [compute_center np_amin np_amax].
    unfold fill_colors, colorless. cbn [colors pre_color_cloud].
    apply create_buffers_generated.
Qed.

Lemma init_keeps_colors_of_any_length_witness :
  (SEGMENTATION sample_config = false \/ @None (list Z) = None) /\
  exists pc gl',
    PointCloud_init sample_palette sample_ramp sample_config gl_empty
      "cloud.pcd"%string ((0, 0, 0) :: [(1, 0, 0); (0, 1, 0)]) []
      (Some ((1, 0, 0) :: [(0, 1, 0)])) None None None true = (Ok pc, gl') /\
    points pc = (0, 0, 0) :: [(1, 0, 0); (0, 1, 0)] /\
    colors pc = Some ((1, 0, 0) :: [(0, 1, 0)]) /\
    gl_generated gl' = (3 + gl_generated gl_empty)%nat.
Proof.
  assert (H : SEGMENTATION sample_config = false \/ @None (list Z) = None)
    by (left; reflexivity).
  split; [exact H|].
  destruct (init_keeps_colors_of_any_length sample_palette sample_ramp
              sample_config gl_empty "cloud.pcd"%string (0, 0, 0)
              [(1, 0, 0); (0, 1, 0)] [] (1, 0, 0) [(0, 1, 0)] None None None)
    as [Hok _].
  exact (Hok true H).
Defined.

(** ** Centre *)

Lemma np_sum_axis_map (axis : Point3D -> R) (pts : list Point3D) :
  np_sum_axis axis pts = fold_right Rplus 0 (map axis pts).
Proof.
  induction pts as [|p pts IH]; [reflexivity|].
  cbn. unfold np_sum_axis in IH. rewrite IH. reflexivity.
Qed.

Lemma compute_center_spec (p : Point3D) (ps : list Point3D) :
  compute_center (p :: ps) = Some (centroid_spec (p :: ps)).
Proof.
  unfold compute_center, centroid_spec, arithmetic_mean.
  rewrite !np_sum_axis_map, !length_map. reflexivity.
Qed.

Lemma sum_deviation (xs : list R) (m : R) :
  fold_right Rplus 0 (map (fun x => x - m) xs)
  = fold_right Rplus 0 xs - INR (length xs) * m.
Proof.
  induction xs as [|x xs IH].
  - cbn. ring.
  - cbn [map fold_right length]. rewrite IH, S_INR. ring.
Qed.

Lemma arithmetic_mean_balances (xs : list R) :
  xs <> [] ->
  fold_right Rplus 0 (map (fun x => x - arithmetic_mean xs) xs) = 0.
Proof.
  intros Hne. rewrite sum_deviation. unfold arithmetic_mean.
  assert (Hn : INR (length xs) <> 0).
  { apply not_0_INR. destruct xs; [congruence|discriminate]. }
  field. exact Hn.
Qed.

(** C8: the centre computed at construction is the per-axis arithmetic mean
    of the points (the sum over the count, about which the deviations sum
    to zero); the cloud (0,0,0), (2,0,0), (0,2,0), (0,0,2) has centre
    (0.5, 0.5, 0.5); on zero points the quotient is undefined and no cloud
    is constructed. *)
Theorem center_is_arithmetic_mean :
  (forall p ps, compute_center (p :: ps) = Some (centroid_spec (p :: ps))) /\
  (forall gdc ramp cfg gl path pts ld cols segl it ir wb pc gl',
      PointCloud_init gdc ramp cfg gl path pts ld cols segl it ir wb
      = (Ok pc, gl') ->
      pts <> [] /\ center pc = centroid_spec pts) /\
  (forall pts, pts <> [] ->
      fold_right Rplus 0
        (map (fun x => x - px (centroid_spec pts)) (map px pts)) = 0 /\
      fold_right Rplus 0
        (map (fun x => x - py (centroid_spec pts)) (map py pts)) = 0 /\
      fold_right Rplus 0
        (map (fun x => x - pz (centroid_spec pts)) (map pz pts)) = 0) /\
  compute_center [(0, 0, 0); (2, 0, 0); (0, 2, 0); (0, 0, 2)]
  = Some (0.5, 0.5, 0.5) /\
  compute_center [] = None /\
  (forall gdc ramp cfg gl path ld cols segl it ir wb,
      PointCloud_init gdc ramp cfg gl path [] ld cols segl it ir wb
      = (Raise ValueError, gl)).
Proof.
  split; [exact compute_center_spec|].
  split.
  { intros gdc ramp cfg gl path pts ld cols segl it ir wb pc gl' H.
    destruct (PointCloud_init_fields _ _ _ _ _ _ _ _ _ _ _ _ _ _ H)
      as (Hne & _ & Hc & _).
    split; [exact Hne|].
    destruct pts as [|p ps]; [congruence|].
    rewrite compute_center_spec in Hc. congruence. }
  split.
  { intros pts Hne.
    assert (Hm : forall ax : Point3D -> R, map ax pts <> []).
    { intros ax E. apply map_eq_nil in E. contradiction. }
    unfold centroid_spec; cbn [px py pz fst snd].
    repeat split; apply arithmetic_mean_balances; apply Hm. }
  split.
  { unfold compute_center, np_sum_axis. cbn. repeat f_equal; lra. }
  split; [reflexivity|].
  intros. reflexivity.
Qed.

Lemma center_is_arithmetic_mean_witness :
  exists pc,
    PointCloud_init sample_palette sample_ramp sample_config gl_empty
      "cloud.pcd"%string [(0, 0, 0); (2, 0, 0); (0, 2, 0); (0, 0, 2)] []
      None None None None false = (Ok pc, gl_empty) /\
    center pc = centroid_spec [(0, 0, 0); (2, 0, 0); (0, 2, 0); (0, 0, 2)].
Proof.
  eexists. split; [reflexivity|].
  destruct center_is_arithmetic_mean as (_ & H & _).
  destruct (H sample_palette sample_ramp sample_config gl_empty
              "cloud.pcd"%string [(0, 0, 0); (2, 0, 0); (0, 2, 0); (0, 0, 2)]
              [] None None None None false _ _ eq_refl) as [_ Hc].
  exact Hc.
Defined.

(** ** Colours of a constructed cloud *)

(** C10: a completed construction never leaves the cloud colourless.  An
    absent or zero-length colours argument is replaced by one RGB triple per
    point, from the height ramp or as copies of the configured flat colour,
    according to COLORLESS_COLORIZE; and construction does complete on a
    non-empty point set when no buffers are written and the flat colour, if
    needed, is an RGB triple. *)
Theorem constructed_cloud_never_colorless
  (get_distinct_colors : nat -> list RGB) (height_ramp : R -> R -> R -> RGB)
  (cfg : Config) (gl : GLState) (path : string)
  (pts : list Point3D) (ld : list (string * Z))
  (cols : option (list RGB)) (segl : option (list Z))
  (it : option Point3D) (ir : option Rotations3D) :
  (forall wb pc gl',
      PointCloud_init get_distinct_colors height_ramp cfg gl path pts ld
        cols segl it ir wb = (Ok pc, gl') ->
      colorless pc = false /\
      exists cs,
        colors pc = Some cs /\
        (cols = None \/ cols = Some [] ->
         length cs = length (points pc) /\
         (COLORLESS_COLORIZE cfg = true ->
          cs = colorize_points_with_height height_ramp (points pc)
                 (pz (pcd_mins pc)) (pz (pcd_maxs pc))) /\
         (COLORLESS_COLORIZE cfg = false ->
          exists rgb,
            cs = repeat rgb (length (points pc)) /\
            forall r g b,
              COLORLESS_COLOR cfg = [r; g; b] ->
              rgb = (1 * r, 1 * g, 1 * b)))) /\
  (pts <> [] ->
   COLORLESS_COLORIZE cfg = true \/
   (exists r g b, COLORLESS_COLOR cfg = [r; g; b]) ->
   exists pc,
     PointCloud_init get_distinct_colors height_ramp cfg gl path pts ld
       cols segl it ir false = (Ok pc, gl)).
Proof.
  split.
  - intros wb pc gl' H.
    destruct (PointCloud_init_fields _ _ _ _ _ _ _ _ _ _ _ _ _ _ H)
      as (_ & Hp & _ & _ & _ & cs & Hc & _ & _ & Habs).
    split; [unfold colorless; rewrite Hc; reflexivity|].
    exists cs. split; [exact Hc|].
    intros Hcols. destruct (Habs Hcols) as (Hl & Hramp & Hflat).
    rewrite Hp. split; [exact Hl|]. split; [exact Hramp|].
    intros Hz. apply ones_like_times_repeat. apply Hflat. exact Hz.
  - intros Hne Hcfg. rewrite PointCloud_init_unfold.
    destruct pts as [|p ps]; [congruence|].
    cbn [compute_center np_amin np_amax].
    unfold fill_colors, colorless. cbn [colors pre_color_cloud points].
    destruct cols as [[|x xs]|].
    + destruct Hcfg as [-> | (r & g & b & ->)].
      * eexists; reflexivity.
      * destruct (COLORLESS_COLORIZE cfg); eexists; reflexivity.
    + eexists; reflexivity.
    + destruct Hcfg as [-> | (r & g & b & ->)].
      * eexists; reflexivity.
      * destruct (COLORLESS_COLORIZE cfg); eexists; reflexivity.
Qed.

Lemma constructed_cloud_never_colorless_witness :
  exists pc,
    PointCloud_init sample_palette sample_ramp sample_config gl_empty
      "cloud.pcd"%string [(0, 0, 0); (1, 0, 0); (0, 1, 0)] []
      None None None None false = (Ok pc, gl_empty) /\
    colorless pc = false /\
    colors pc
    = Some (repeat (1 * (1 / 2), 1 * (1 / 2), 1 * (1 / 2)) 3).
Proof.
  eexists. split; [reflexivity|].
  destruct (constructed_cloud_never_colorless sample_palette sample_ramp
              sample_config gl_empty "cloud.pcd"%string
              [(0, 0, 0); (1, 0, 0); (0, 1, 0)] [] None None None None)
    as [H _].
  destruct (H false _ _ eq_refl) as [Hc _].
  split; [exact Hc | reflexivity].
Defined.

(** C9: [get_no_of_colors] does not return the colour count.  Whenever the
    colours array holds at least one point (so in particular more than one)
    the call raises [ValueError], because the array itself is used as the
    condition; the only value it can return is 0, and it returns it when
    colours is absent (or a zero-length array, which a constructed cloud
    never holds).  On every constructed cloud, after any pose mutations,
    the call raises. *)
Theorem get_no_of_colors_raises :
  (forall pc cs,
      colors pc = Some cs -> (1 < length cs)%nat ->
      get_no_of_colors pc = Raise ValueError) /\
  (forall pc cs,
      colors pc = Some cs -> cs <> [] ->
      get_no_of_colors pc = Raise ValueError) /\
  (forall pc, colors pc = None -> get_no_of_colors pc = Ok 0%nat) /\
  (forall pc n,
      get_no_of_colors pc = Ok n ->
      n = 0%nat /\ (colors pc = None \/ colors pc = Some [])) /\
  (forall gdc ramp cfg gl path pts ld cols segl it ir wb pc gl' ms,
      PointCloud_init gdc ramp cfg gl path pts ld cols segl it ir wb
      = (Ok pc, gl') ->
      get_no_of_colors (run pc ms) = Raise ValueError).
Proof.
  assert (Hraise : forall pc cs,
             colors pc = Some cs -> cs <> [] ->
             get_no_of_colors pc = Raise ValueError).
  { intros pc cs Hc Hne. unfold get_no_of_colors. rewrite Hc.
    destruct cs; [congruence | reflexivity]. }
  split.
  { intros pc cs Hc Hl. apply (Hraise pc cs Hc).
    intros E; rewrite E in Hl; cbn in Hl; lia. }
  split; [exact Hraise|].
  split.
  { intros pc Hc. unfold get_no_of_colors. rewrite Hc. reflexivity. }
  split.
  { intros pc n. unfold get_no_of_colors.
    destruct (colors pc) as [[|c cs]|]; cbn; intros H;
      try discriminate; injection H as <-; auto. }
  intros gdc ramp cfg gl path pts ld cols segl it ir wb pc gl' ms H.
  destruct (PointCloud_init_fields _ _ _ _ _ _ _ _ _ _ _ _ _ _ H)
    as (_ & _ & _ & _ & _ & cs & Hc & Hne & _).
  apply (Hraise _ cs); [rewrite run_colors; exact Hc | exact Hne].
Qed.

Lemma get_no_of_colors_raises_witness :
  exists pc,
    PointCloud_init sample_palette sample_ramp sample_config gl_empty
      "cloud.pcd"%string [(0, 0, 0); (1, 0, 0)] []
      (Some [(1, 0, 0); (0, 1, 0)]) None None None false
    = (Ok pc, gl_empty) /\
    get_no_of_colors (run pc [SetRotX 10]) = Raise ValueError.
Proof.
  eexists. split; [reflexivity|].
  destruct get_no_of_colors_raises as (_ & _ & _ & _ & H).
  exact (H sample_palette sample_ramp sample_config gl_empty
           "cloud.pcd"%string [(0, 0, 0); (1, 0, 0)] []
           (Some [(1, 0, 0); (0, 1, 0)]) None None None false _ _
           [SetRotX 10] eq_refl).
Defined.

(** ** Label-colour blend *)

Ltac vec_ring :=
  repeat match goal with
         | v : ?T |- _ =>
             unify T (R * R * R)%type; destruct v as [[? ?] ?]
         end;
  unfold vadd, vscale, vzero, px, py, pz; cbn [fst snd];
  apply injective_projections; [apply injective_projections|];
  cbn [fst snd]; ring.

Lemma blend_mix_0 (x c : RGB) : vadd (vscale x 0) (vscale c (1 - 0)) = c.
Proof. vec_ring. Qed.

Lemma blend_mix_1 (x c : RGB) : vadd (vscale x 1) (vscale c (1 - 1)) = x.
Proof. vec_ring. Qed.

Lemma mapM_length {A B : Type} (f : A -> result B) (l : list A) :
  forall l', mapM f l = Ok l' -> length l' = length l.
Proof.
  induction l as [|a l IH]; cbn; intros l' H.
  - injection H as <-. reflexivity.
  - destruct (f a) as [b|e]; cbn in H; [|discriminate].
    destruct (mapM f l) as [bs|e]; cbn in H; [|discriminate].
    injection H as <-. cbn. f_equal. apply IH. reflexivity.
Qed.

Lemma mapM_nth_error {A B : Type} (f : A -> result B) (l : list A) :
  forall l' i a,
    mapM f l = Ok l' -> nth_error l i = Some a ->
    exists b, f a = Ok b /\ nth_error l' i = Some b.
Proof.
  induction l as [|x l IH]; cbn; intros l' i a H Hi.
  - destruct i; discriminate.
  - destruct (f x) as [b|e] eqn:Ef; cbn in H; [|discriminate].
    destruct (mapM f l) as [bs|e]; cbn in H; [|discriminate].
    injection H as <-. destruct i as [|i]; cbn in Hi.
    + injection Hi as <-. exists b. split; [exact Ef | reflexivity].
    + cbn. apply IH; [reflexivity | exact Hi].
Qed.

Lemma mapM_total {A B : Type} (f : A -> result B) (g : A -> B) (l : list A) :
  (forall a, In a l -> f a = Ok (g a)) -> mapM f l = Ok (map g l).
Proof.
  induction l as [|x l IH]; cbn; intros H; [reflexivity|].
  rewrite (H x) by (left; reflexivity). cbn.
  rewrite IH by (intros a Ha; apply H; right; exact Ha). reflexivity.
Qed.

Lemma mapM_raise {A B : Type} (f : A -> result B) (e : exn) (l : list A) :
  (forall a e', f a = Raise e' -> e' = e) ->
  (exists a, In a l /\ f a = Raise e) ->
  mapM f l = Raise e.
Proof.
  intros Hone. induction l as [|x l IH]; intros (a & Ha & Hf).
  - destruct Ha.
  - cbn. destruct (f x) as [b|e'] eqn:Ex; cbn.
    + destruct Ha as [-> | Ha]; [congruence|].
      rewrite IH by (exists a; split; assumption). reflexivity.
    + f_equal. apply (Hone x). exact Ex.
Qed.

(** The row a label selects: its index after numpy's wrap-around. *)
Lemma np_index_in_range (n : nat) (l : Z) :
  (0 <= l < Z.of_nat n)%Z -> np_index n l = Ok (Z.to_nat l).
Proof.
  intros [H0 H1]. unfold np_index.
  destruct (Z.leb_spec 0 l); [|lia].
  destruct (Z.ltb_spec l (Z.of_nat n)); [|lia]. reflexivity.
Qed.

Lemma np_index_wraps (n : nat) (l : Z) :
  (- Z.of_nat n <= l < 0)%Z ->
  np_index n l = Ok (Z.to_nat (l + Z.of_nat n)).
Proof.
  intros [H0 H1]. unfold np_index.
  destruct (Z.leb_spec 0 l); [lia|]. cbn [andb].
  destruct (Z.leb_spec (- Z.of_nat n) l); [|lia].
  destruct (Z.ltb_spec l 0); [|lia]. reflexivity.
Qed.

Lemma np_index_outside (n : nat) (l : Z) :
  (Z.of_nat n <= l \/ l < - Z.of_nat n)%Z -> np_index n l = Raise IndexError.
Proof.
  intros H. unfold np_index.
  destruct (Z.leb_spec 0 l); destruct (Z.ltb_spec l (Z.of_nat n));
    cbn [andb]; try lia;
    destruct (Z.leb_spec (- Z.of_nat n) l); destruct (Z.ltb_spec l 0);
    cbn [andb]; try lia; reflexivity.
Qed.

Lemma np_index_ok (n : nat) (l : Z) (j : nat) :
  np_index n l = Ok j ->
  (j < n)%nat /\
  ((0 <= l < Z.of_nat n)%Z /\ j = Z.to_nat l \/
   (- Z.of_nat n <= l < 0)%Z /\ j = Z.to_nat (l + Z.of_nat n)).
Proof.
  unfold np_index.
  destruct (Z.leb_spec 0 l); destruct (Z.ltb_spec l (Z.of_nat n));
    cbn [andb]; try (intros E; injection E as <-; split; [lia | left; lia]);
    destruct (Z.leb_spec (- Z.of_nat n) l); destruct (Z.ltb_spec l 0);
    cbn [andb]; try discriminate;
    intros E; injection E as <-; split; try lia; right; lia.
Qed.

Lemma np_index_raise (n : nat) (l : Z) (e : exn) :
  np_index n l = Raise e -> e = IndexError.
Proof.
  unfold np_index.
  destruct ((0 <=? l)%Z && (l <? Z.of_nat n)%Z); [discriminate|].
  destruct ((- Z.of_nat n <=? l)%Z && (l <? 0)%Z); [discriminate|].
  intros H. injection H as <-. reflexivity.
Qed.

Lemma length_np_eye (n : nat) : length (np_eye n) = n.
Proof. unfold np_eye. rewrite length_map, length_seq. reflexivity. Qed.

Lemma nth_np_eye (n j : nat) :
  (j < n)%nat -> nth j (np_eye n) [] = np_eye_row n j.
Proof.
  intros Hj. unfold np_eye.
  rewrite (nth_indep _ [] (np_eye_row n 0%nat))
    by (rewrite length_map, length_seq; exact Hj).
  rewrite map_nth, seq_nth by exact Hj. reflexivity.
Qed.

Lemma np_dot_row_unit (j n : nat) : forall (s : nat) (m : list RGB),
  length m = n ->
  np_dot_row (map (fun k => if Nat.eqb j k then 1 else 0) (seq s n)) m
  = if ((s <=? j)%nat && (j <? s + n)%nat)%bool
    then nth (j - s) m vzero else vzero.
Proof.
  induction n as [|n IH]; intros s m Hm.
  - destruct m; [|discriminate]. unfold np_dot_row.
    cbn [seq map combine fold_right].
    destruct (_ && _)%bool; [|reflexivity].
    destruct (j - s)%nat; reflexivity.
  - destruct m as [|x m]; [discriminate|]. injection Hm as Hm.
    cbn [seq map]. unfold np_dot_row in *. cbn [combine fold_right fst snd].
    rewrite (IH (S s) m Hm).
    destruct (Nat.eqb_spec j s) as [->|Hne].
    + destruct (Nat.leb_spec (S s) s); [lia|]. cbn [andb].
      destruct (Nat.leb_spec s s); [|lia].
      destruct (Nat.ltb_spec s (s + S n)); [|lia]. cbn [andb].
      rewrite Nat.sub_diag. cbn [nth]. vec_ring.
    + destruct (Nat.leb_spec (S s) j); destruct (Nat.ltb_spec j (S s + n));
        destruct (Nat.leb_spec s j); destruct (Nat.ltb_spec j (s + S n));
        cbn [andb]; try lia; try vec_ring.
      replace (j - s)%nat with (S (j - S s)) by lia. cbn [nth].
      generalize (nth (j - S s) m vzero). intros y. vec_ring.
Qed.

Lemma np_dot_row_eye (n j : nat) (m : list RGB) :
  length m = n -> (j < n)%nat ->
  np_dot_row (np_eye_row n j) m = nth j m vzero.
Proof.
  intros Hm Hj. unfold np_eye_row. rewrite (np_dot_row_unit j n 0 m Hm).
  cbn [Nat.leb andb Nat.add]. destruct (Nat.ltb_spec j n); [|lia].
  rewrite Nat.sub_0_r. reflexivity.
Qed.

Lemma zip_add_nth_error (a : list RGB) : forall b i x y,
  nth_error a i = Some x -> nth_error b i = Some y ->
  nth_error (zip_add a b) i = Some (vadd x y).
Proof.
  induction a as [|x0 a IH]; intros b i x y Ha Hb.
  - destruct i; discriminate.
  - destruct b as [|y0 b]; [destruct i; discriminate|].
    destruct i as [|i]; cbn in *.
    + injection Ha as <-. injection Hb as <-. reflexivity.
    + apply IH; assumption.
Qed.

Lemma zip_add_length (a : list RGB) : forall b,
  length a = length b -> length (zip_add a b) = length a.
Proof.
  induction a as [|x a IH]; intros [|y b] H; try discriminate; cbn;
    [reflexivity|]. f_equal. apply IH. injection H as H. exact H.
Qed.

Lemma zip_add_right (A : Type) (f : A -> RGB) (g : RGB -> RGB)
  (a : list A) : forall (b : list RGB),
  length a = length b ->
  (forall x y, vadd (f x) (g y) = y) ->
  zip_add (map f a) (map g b) = b.
Proof.
  induction a as [|x a IH]; intros [|y b] Hl Hh; try discriminate;
    [reflexivity|]. cbn. f_equal; [apply Hh|].
  apply IH; [injection Hl as Hl; exact Hl | exact Hh].
Qed.

Lemma zip_add_left (A : Type) (f h : A -> RGB) (g : RGB -> RGB)
  (a : list A) : forall (b : list RGB),
  length a = length b ->
  (forall x y, In x a -> vadd (f x) (g y) = h x) ->
  zip_add (map f a) (map g b) = map h a.
Proof.
  induction a as [|x a IH]; intros [|y b] Hl Hh; try discriminate;
    [reflexivity|]. cbn. f_equal; [apply Hh; left; reflexivity|].
  apply IH; [injection Hl as Hl; exact Hl|].
  intros x' y' Hx. apply Hh. right. exact Hx.
Qed.

Lemma np_add_nth_error (a b out : list RGB) (i : nat) (x y : RGB) :
  np_add a b = Ok out ->
  nth_error a i = Some x -> nth_error b i = Some y ->
  nth_error out i = Some (vadd x y).
Proof.
  unfold np_add. destruct (Nat.eqb (length a) (length b)).
  - intros H; injection H as <-. apply zip_add_nth_error.
  - destruct a as [|x0 [|x1 a]].
    + intros _ Ha. destruct i; discriminate.
    + intros H Ha Hb. injection H as <-.
      destruct i as [|i]; [|destruct i; discriminate].
      cbn in Ha. injection Ha as <-.
      destruct b as [|y0 b]; [discriminate|]. cbn in Hb |- *.
      injection Hb as <-. reflexivity.
    + destruct b as [|y0 [|y1 b]]; try discriminate.
      intros H Ha Hb. injection H as <-.
      destruct i as [|i]; [|destruct i; discriminate].
      cbn in Ha, Hb |- *. injection Hb as <-. injection Ha as <-.
      reflexivity.
Qed.

Lemma np_take_eye_nth (n : nat) (ls : list Z) (rows : list (list R))
  (i : nat) (l : Z) :
  np_take (np_eye n) ls = Ok rows ->
  nth_error ls i = Some l ->
  exists j, np_index n l = Ok j /\ nth_error rows i = Some (np_eye_row n j).
Proof.
  unfold np_take. intros H Hi.
  destruct (mapM_nth_error _ _ _ _ _ H Hi) as (row & Hrow & Hnth).
  rewrite length_np_eye in Hrow.
  destruct (np_index n l) as [j|e] eqn:Ej; cbn in Hrow; [|discriminate].
  injection Hrow as <-. exists j. split; [reflexivity|].
  rewrite Hnth. f_equal. apply nth_np_eye.
  apply (np_index_ok n l j Ej).
Qed.

Lemma np_take_eye_total (n : nat) (ls : list Z) :
  (forall l, In l ls -> (0 <= l < Z.of_nat n)%Z) ->
  np_take (np_eye n) ls = Ok (map (fun l => np_eye_row n (Z.to_nat l)) ls).
Proof.
  intros H. unfold np_take. apply mapM_total. intros l Hl.
  rewrite length_np_eye, (np_index_in_range n l (H l Hl)). cbn.
  f_equal. apply nth_np_eye. specialize (H l Hl). lia.
Qed.

Lemma np_take_eye_raise (n : nat) (ls : list Z) :
  (exists l, In l ls /\ (Z.of_nat n <= l \/ l < - Z.of_nat n)%Z) ->
  np_take (np_eye n) ls = Raise IndexError.
Proof.
  intros (l & Hl & Hout). unfold np_take. apply mapM_raise.
  - intros a e'. rewrite length_np_eye.
    destruct (np_index n a) as [j|e] eqn:Ej; cbn; [discriminate|].
    intros H. injection H as <-. apply (np_index_raise n a e Ej).
  - exists l. split; [exact Hl|].
    rewrite length_np_eye, (np_index_outside n l Hout). reflexivity.
Qed.

Lemma label_colors_inv (pc : PointCloud) (ls : list Z) (r : option (list RGB)) :
  labels pc = Some ls ->
  label_colors pc = Ok r ->
  exists rows lcm mix cs out,
    np_take (np_eye (length (label_definition pc))) ls = Ok rows /\
    label_color_map pc = Some lcm /\
    length (label_definition pc) = length lcm /\
    mix_ratio pc = Some mix /\
    colors pc = Some cs /\
    np_add (map (fun c => vscale c mix)
              (map (fun row => np_dot_row row lcm) rows))
      (map (fun c => vscale c (1 - mix)) cs) = Ok out /\
    r = Some out.
Proof.
  intros Hl. unfold label_colors. rewrite Hl.
  destruct (np_take _ ls) as [rows|e]; cbn; [|discriminate].
  destruct (label_color_map pc) as [lcm|]; [|discriminate].
  unfold np_dot.
  destruct (Nat.eqb_spec (length (label_definition pc)) (length lcm))
    as [Hk|Hk]; cbn; [|discriminate].
  destruct (mix_ratio pc) as [mix|]; [|discriminate].
  destruct (colors pc) as [cs|]; [|discriminate].
  destruct (np_add _ _) as [out|e] eqn:Ea; cbn; [|discriminate].
  intros H. injection H as <-.
  exists rows, lcm, mix, cs, out. repeat split; assumption.
Qed.

(** C3: with labels present, wherever the blend returns an array its entry
    at every index [i] whose label lies in the palette's range equals
    [mix_ratio * label_color_map[labels[i]] + (1 - mix_ratio) * colors[i]];
    the blend does return when the palette has one colour per class, labels
    and colours have the same length and every label is in range, and then
    [mix_ratio = 0] gives back the base colours and [mix_ratio = 1] the
    per-point label colours.  With labels absent the result is the base
    colours array itself. *)
Theorem label_colors_blend (pc : PointCloud) :
  (forall ls cs lcm mix,
      labels pc = Some ls -> colors pc = Some cs ->
      label_color_map pc = Some lcm -> mix_ratio pc = Some mix ->
      (forall out i l c,
          label_colors pc = Ok (Some out) ->
          nth_error ls i = Some l -> nth_error cs i = Some c ->
          (0 <= l < Z.of_nat (length lcm))%Z ->
          nth_error out i
          = Some (blend_spec mix (nth (Z.to_nat l) lcm vzero) c)) /\
      (length lcm = length (label_definition pc) ->
       length ls = length cs ->
       (forall l, In l ls -> (0 <= l < Z.of_nat (length lcm))%Z) ->
       exists out,
         label_colors pc = Ok (Some out) /\
         length out = length cs /\
         (mix = 0 -> out = cs) /\
         (mix = 1 -> out = map (fun l => nth (Z.to_nat l) lcm vzero) ls))) /\
  (labels pc = None -> label_colors pc = Ok (colors pc)).
Proof.
  split.
  - intros ls cs lcm mix Hl Hc Hm Hx. split.
    + intros out i l c Hout Hi Hci Hrange.
      destruct (label_colors_inv pc ls _ Hl Hout)
        as (rows & lcm' & mix' & cs' & out' & Ht & Hm' & Hk & Hx' & Hc' & Ha & E).
      assert (lcm' = lcm) as -> by congruence.
      assert (mix' = mix) as -> by congruence.
      assert (cs' = cs) as -> by congruence.
      injection E as <-.
      destruct (np_take_eye_nth _ _ _ _ _ Ht Hi) as (j & Hj & Hrow).
      rewrite Hk, (np_index_in_range _ _ Hrange) in Hj. injection Hj as <-.
      assert (Hai :
        nth_error (map (fun c0 => vscale c0 mix)
                     (map (fun row => np_dot_row row lcm) rows)) i
        = Some (vscale (np_dot_row (np_eye_row (length (label_definition pc))
                                      (Z.to_nat l)) lcm) mix))
        by (rewrite !nth_error_map, Hrow; reflexivity).
      assert (Hbi :
        nth_error (map (fun c0 => vscale c0 (1 - mix)) cs) i
        = Some (vscale c (1 - mix)))
        by (exact (map_nth_error _ _ _ Hci)).
      rewrite (np_add_nth_error _ _ _ i _ _ Ha Hai Hbi).
      f_equal. rewrite Hk, np_dot_row_eye by (try reflexivity; lia).
      generalize (nth (Z.to_nat l) lcm vzero). intros x.
      unfold blend_spec. vec_ring.
    + intros Hk Hlen Hrange. unfold label_colors.
      rewrite Hl, Hm, Hx, Hc, <- Hk.
      rewrite np_take_eye_total by exact Hrange. cbn [bind].
      unfold np_dot. rewrite Nat.eqb_refl. cbn [bind].
      unfold np_add. rewrite !length_map, Hlen, Nat.eqb_refl. cbn [bind].
      eexists. split; [reflexivity|].
      split.
      { rewrite zip_add_length; rewrite !length_map; [|exact Hlen].
        exact Hlen. }
      rewrite !map_map.
      split; intros ->.
      * apply zip_add_right; [exact Hlen|]. intros x y. apply blend_mix_0.
      * apply (zip_add_left _ _ (fun l => nth (Z.to_nat l) lcm vzero));
          [exact Hlen|].
        intros l y Hin. rewrite blend_mix_1.
        apply np_dot_row_eye; [reflexivity|]. specialize (Hrange l Hin). lia.
  - intros Hl. unfold label_colors. rewrite Hl. reflexivity.
Qed.

Lemma label_colors_blend_witness :
  exists pc,
    PointCloud_init sample_palette sample_ramp sample_seg_config gl_empty
      "cloud.pcd"%string [(0, 0, 0); (1, 0, 0)]
      [("car"%string, 0%Z); ("tree"%string, 1%Z)]
      (Some [(1, 0, 0); (0, 1, 0)]) (Some [1%Z; 0%Z]) None None false
    = (Ok pc, gl_empty) /\
    exists out,
      label_colors pc = Ok (Some out) /\
      length out = 2%nat /\
      nth_error out 0
      = Some (blend_spec (3 / 10) (nth 1 (sample_palette 2) vzero) (1, 0, 0)).
Proof.
  eexists. split; [reflexivity|].
  match goal with
  | |- exists out, label_colors ?p = _ /\ _ =>
      destruct (label_colors_blend p) as [H _];
      destruct (H [1%Z; 0%Z] [(1, 0, 0); (0, 1, 0)] (sample_palette 2)
                  (3 / 10) eq_refl eq_refl eq_refl eq_refl) as [Hidx Hret]
  end.
  destruct Hret as (out & Hout & Hlen & _).
  - reflexivity.
  - reflexivity.
  - cbn. intros l [<- | [<- | []]]; lia.
  - exists out. split; [exact Hout|]. split; [exact Hlen|].
    apply (Hidx out 0%nat 1%Z (1, 0, 0) Hout eq_refl eq_refl).
    cbn. lia.
Defined.

(** C7, as stated, fails: the blend indexes [np.eye(len(label_definition))]
    with the labels and never looks a label up in [label_definition].  The
    label -1 has no entry in {car: 0} and is not a palette position, yet it
    selects the last palette row and the blend returns; likewise label 1
    under {unlabeled: 0, car: 5}. *)
Lemma label_without_entry_counterexample :
  (exists pc out,
      PointCloud_init sample_palette sample_ramp sample_seg_config gl_empty
        "cloud.pcd"%string [(0, 0, 0)] [("car"%string, 0%Z)]
        (Some [(1, 0, 0)]) (Some [(-1)%Z]) None None false
      = (Ok pc, gl_empty) /\
      labels pc = Some [(-1)%Z] /\
      ~ In (-1)%Z (dict_values (label_definition pc)) /\
      ~ (0 <= -1 < Z.of_nat (length (label_definition pc)))%Z /\
      label_colors pc = Ok (Some out)) /\
  (exists pc out,
      PointCloud_init sample_palette sample_ramp sample_seg_config gl_empty
        "cloud.pcd"%string [(0, 0, 0)]
        [("unlabeled"%string, 0%Z); ("car"%string, 5%Z)]
        (Some [(1, 0, 0)]) (Some [1%Z]) None None false
      = (Ok pc, gl_empty) /\
      labels pc = Some [1%Z] /\
      ~ In 1%Z (dict_values (label_definition pc)) /\
      label_colors pc = Ok (Some out)).
Proof.
  split.
  - eexists. eexists. split; [reflexivity|].
    split; [reflexivity|].
    split; [cbn; intros [H | []]; discriminate|].
    split; [cbn; lia|].
    reflexivity.
  - eexists. eexists. split; [reflexivity|].
    split; [reflexivity|].
    split; [cbn; intros [H | [H | []]]; discriminate|].
    reflexivity.
Qed.

(** C7 (amended): with labels present, if some label value lies outside
    the index range of the palette as numpy reads it, that is at or above
    K = len(label_definition) or below -K, evaluating [label_colors] raises
    [IndexError]; so does buffer creation, which evaluates the blend. *)
Theorem label_colors_index_error (pc : PointCloud) (ls : list Z) :
  labels pc = Some ls ->
  (exists l, In l ls /\
     (Z.of_nat (length (label_definition pc)) <= l \/
      l < - Z.of_nat (length (label_definition pc)))%Z) ->
  label_colors pc = Raise IndexError /\
  forall gl, fst (create_buffers pc gl) = Raise IndexError.
Proof.
  intros Hl Hout.
  assert (H : label_colors pc = Raise IndexError).
  { unfold label_colors. rewrite Hl.
    rewrite (np_take_eye_raise _ _ Hout). reflexivity. }
  split; [exact H|].
  intros gl. unfold create_buffers, glGenBuffers3.
  replace (label_colors (with_vbos pc _)) with (label_colors pc)
    by reflexivity.
  rewrite H. reflexivity.
Qed.

Lemma label_colors_index_error_witness :
  exists pc,
    PointCloud_init sample_palette sample_ramp sample_seg_config gl_empty
      "cloud.pcd"%string [(0, 0, 0); (1, 0, 0)] [("car"%string, 0%Z)]
      (Some [(1, 0, 0); (0, 1, 0)]) (Some [0%Z; 5%Z]) None None false
    = (Ok pc, gl_empty) /\
    label_colors pc = Raise IndexError.
Proof.
  eexists. split; [reflexivity|].
  match goal with
  | |- label_colors ?p = _ =>
      destruct (label_colors_index_error p [0%Z; 5%Z] eq_refl) as [H _]
  end.
  - exists 5%Z. split; [right; left; reflexivity|]. cbn. lia.
  - exact H.
Defined.

(** ** Dictionaries *)

Section DictFacts.
Context {K V : Type}.
Variable eqb : K -> K -> bool.
Hypothesis eqb_eq : forall a b, eqb a b = true <-> a = b.

Lemma eqb_refl_true (k : K) : eqb k k = true.
Proof. apply eqb_eq. reflexivity. Qed.

Lemma eqb_neq_false (a b : K) : a <> b -> eqb a b = false.
Proof.
  intros H. destruct (eqb a b) eqn:E; [|reflexivity].
  apply eqb_eq in E. contradiction.
Qed.

Lemma dict_get_In (d : list (K * V)) (k : K) (v : V) :
  dict_get eqb d k = Some v -> In (k, v) d.
Proof.
  induction d as [|[k' v'] d IH]; cbn; [discriminate|].
  destruct (eqb k' k) eqn:E.
  - intros H. injection H as <-. apply eqb_eq in E. subst. left. reflexivity.
  - intros H. right. apply IH. exact H.
Qed.

Lemma dict_get_key (d : list (K * V)) (k : K) :
  In k (dict_keys d) -> exists v, dict_get eqb d k = Some v.
Proof.
  induction d as [|[k' v'] d IH]; cbn; [intros []|].
  destruct (eqb k' k) eqn:E.
  - intros _. exists v'. reflexivity.
  - intros [H | H]; [|apply IH; exact H].
    subst. rewrite eqb_refl_true in E. discriminate.
Qed.

Lemma dict_set_get_same (d : list (K * V)) (k : K) (v : V) :
  dict_get eqb (dict_set eqb d k v) k = Some v.
Proof.
  induction d as [|[k' v'] d IH]; cbn.
  - rewrite eqb_refl_true. reflexivity.
  - destruct (eqb k' k) eqn:E; cbn; rewrite E; [reflexivity | exact IH].
Qed.

Lemma dict_set_get_other (d : list (K * V)) (k k0 : K) (v : V) :
  k0 <> k -> dict_get eqb (dict_set eqb d k v) k0 = dict_get eqb d k0.
Proof.
  intros Hne. induction d as [|[k' v'] d IH]; cbn.
  - rewrite eqb_neq_false by (intros E; apply Hne; symmetry; exact E).
    reflexivity.
  - destruct (eqb k' k) eqn:E; cbn.
    + apply eqb_eq in E. subst k'.
      rewrite eqb_neq_false by (intros E; apply Hne; symmetry; exact E).
      reflexivity.
    + destruct (eqb k' k0); [reflexivity | exact IH].
Qed.

Lemma dict_set_keys (d : list (K * V)) (k : K) (v : V) :
  In k (dict_keys d) -> dict_keys (dict_set eqb d k v) = dict_keys d.
Proof.
  induction d as [|[k' v'] d IH]; cbn; [intros []|].
  destruct (eqb k' k) eqn:E; cbn; [reflexivity|].
  intros [H | H].
  - subst. rewrite eqb_refl_true in E. discriminate.
  - f_equal. apply IH. exact H.
Qed.

Lemma dict_set_new (d : list (K * V)) (k : K) (v : V) :
  ~ In k (dict_keys d) -> dict_set eqb d k v = d ++ [(k, v)].
Proof.
  induction d as [|[k' v'] d IH]; cbn; intros Hn; [reflexivity|].
  destruct (eqb k' k) eqn:E.
  - apply eqb_eq in E. subst. exfalso. apply Hn. left. reflexivity.
  - f_equal. apply IH. intros H. apply Hn. right. exact H.
Qed.

Lemma dict_get_set_cases (d : list (K * V)) (k k0 : K) (v v0 : V) :
  dict_get eqb (dict_set eqb d k v) k0 = Some v0 ->
  k0 = k /\ v0 = v \/ dict_get eqb d k0 = Some v0.
Proof.
  destruct (eqb k0 k) eqn:E.
  - apply eqb_eq in E. subst k0. rewrite dict_set_get_same.
    intros H. injection H as <-. left. split; reflexivity.
  - rewrite dict_set_get_other.
    + intros H. right. exact H.
    + intros E'. subst. rewrite eqb_refl_true in E. discriminate.
Qed.

Lemma nodup_keys_functional (d : list (K * V)) (k : K) (v1 v2 : V) :
  NoDup (dict_keys d) -> In (k, v1) d -> In (k, v2) d -> v1 = v2.
Proof.
  induction d as [|[k' v'] d IH]; cbn; intros Hnd H1 H2; [destruct H1|].
  apply NoDup_cons_iff in Hnd. destruct Hnd as [Hn Hnd].
  assert (Hin : forall v, In (k', v) d -> False).
  { intros v Hv. apply Hn. apply (in_map fst) in Hv. exact Hv. }
  destruct H1 as [H1 | H1]; destruct H2 as [H2 | H2].
  - congruence.
  - injection H1 as -> ->. exfalso. apply (Hin v2). exact H2.
  - injection H2 as -> ->. exfalso. apply (Hin v1). exact H1.
  - apply IH; assumption.
Qed.
End DictFacts.

Lemma dict_set_sum (K : Type) (eqb : K -> K -> bool)
  (d : list (K * nat)) (k : K) (old v : nat) :
  dict_get eqb d k = Some old ->
  (list_sum (dict_values (dict_set eqb d k v)) + old
   = list_sum (dict_values d) + v)%nat.
Proof.
  induction d as [|[k' v'] d IH]; cbn; [discriminate|].
  destruct (eqb k' k) eqn:E; cbn.
  - intros H. injection H as ->. lia.
  - intros H. specialize (IH H). unfold dict_values, list_sum in IH. lia.
Qed.

(** ** [np.unique] with counts *)

Lemma unique_insert_keys (v : Z) (acc : list (Z * nat)) (k : Z) :
  In k (dict_keys (unique_insert v acc)) -> k = v \/ In k (dict_keys acc).
Proof.
  induction acc as [|[u c] acc IH]; cbn.
  - intros [H | []]. left. symmetry. exact H.
  - destruct (Z.ltb_spec v u); cbn.
    + intros [H0 | [H0 | H0]]; auto.
    + destruct (Z.eqb_spec v u); cbn.
      * intros [H0 | H0]; auto.
      * intros [H0 | H0]; [auto|]. destruct (IH H0); auto.
Qed.

Lemma unique_insert_sorted (v : Z) (acc : list (Z * nat)) :
  StronglySorted Z.lt (dict_keys acc) ->
  StronglySorted Z.lt (dict_keys (unique_insert v acc)).
Proof.
  induction acc as [|[u c] acc IH]; cbn; intros Hs.
  - constructor; constructor.
  - apply StronglySorted_inv in Hs. destruct Hs as [Hs Hall].
    rewrite Forall_forall in Hall.
    destruct (Z.ltb_spec v u); cbn.
    + constructor.
      * constructor; [exact Hs | apply Forall_forall; exact Hall].
      * constructor; [exact H|].
        apply Forall_forall. intros x Hx. specialize (Hall x Hx). lia.
    + destruct (Z.eqb_spec v u); cbn.
      * constructor; [exact Hs | apply Forall_forall; exact Hall].
      * constructor; [apply IH; exact Hs|].
        apply Forall_forall. intros x Hx.
        destruct (unique_insert_keys _ _ _ Hx) as [-> | Hx'];
          [lia | apply Hall; exact Hx'].
Qed.

Lemma unique_insert_sum (v : Z) (acc : list (Z * nat)) :
  list_sum (dict_values (unique_insert v acc))
  = S (list_sum (dict_values acc)).
Proof.
  induction acc as [|[u c] acc IH]; cbn; [reflexivity|].
  destruct (v <? u)%Z; cbn; [reflexivity|].
  destruct (v =? u)%Z; cbn; [reflexivity|].
  unfold dict_values, list_sum in IH. rewrite IH. lia.
Qed.

Lemma strongly_sorted_lt_nodup (l : list Z) :
  StronglySorted Z.lt l -> NoDup l.
Proof.
  induction l as [|x l IH]; intros Hs; [constructor|].
  apply StronglySorted_inv in Hs. destruct Hs as [Hs Hall].
  constructor; [|apply IH; exact Hs].
  intros Hin. rewrite Forall_forall in Hall. specialize (Hall x Hin). lia.
Qed.

Lemma np_unique_counts_sorted (a : list Z) :
  StronglySorted Z.lt (dict_keys (np_unique_counts a)).
Proof.
  induction a as [|v a IH]; cbn; [constructor|].
  apply unique_insert_sorted. exact IH.
Qed.

Lemma np_unique_counts_facts (a : list Z) :
  NoDup (dict_keys (np_unique_counts a)) /\
  (forall k, In k (dict_keys (np_unique_counts a)) -> In k a) /\
  list_sum (dict_values (np_unique_counts a)) = length a.
Proof.
  split; [apply strongly_sorted_lt_nodup, np_unique_counts_sorted|].
  split.
  - induction a as [|v a IH]; cbn; [intros k []|].
    intros k Hk. destruct (unique_insert_keys _ _ _ Hk) as [-> | Hk'].
    + left. reflexivity.
    + right. apply IH. exact Hk'.
  - induction a as [|v a IH]; [reflexivity|].
    change (np_unique_counts (v :: a))
      with (unique_insert v (np_unique_counts a)).
    rewrite unique_insert_sum, IH. reflexivity.
Qed.

(** ** Label counts *)

Lemma counter_init (keys : list string) : forall acc : list (string * nat),
  NoDup keys ->
  (forall k, In k keys -> ~ In k (dict_keys acc)) ->
  fold_left (fun d k => dict_set String.eqb d k 0%nat) keys acc
  = acc ++ map (fun k => (k, 0%nat)) keys.
Proof.
  induction keys as [|k keys IH]; intros acc Hnd Hfresh; cbn.
  - rewrite app_nil_r. reflexivity.
  - apply NoDup_cons_iff in Hnd. destruct Hnd as [Hk Hnd].
    rewrite (dict_set_new String.eqb String.eqb_eq)
      by (apply Hfresh; left; reflexivity).
    rewrite IH; [rewrite <- app_assoc; reflexivity | exact Hnd |].
    intros k' Hk' Hin. unfold dict_keys in Hin.
    rewrite map_app, in_app_iff in Hin. destruct Hin as [Hin | Hin].
    + apply (Hfresh k'); [right; exact Hk' | exact Hin].
    + cbn in Hin. destruct Hin as [<- | []]. contradiction.
Qed.

Lemma int2label_sound (l : list (string * Z)) :
  forall (acc : list (Z * string)) (idx : Z) (name : string),
    dict_get Z.eqb
      (fold_left (fun d li => dict_set Z.eqb d (snd li) (fst li)) l acc) idx
    = Some name ->
    dict_get Z.eqb acc idx = Some name \/ In (name, idx) l.
Proof.
  induction l as [|[n i] l IH]; intros acc idx name H; cbn in H.
  - left. exact H.
  - destruct (IH _ _ _ H) as [H' | H']; [|right; right; exact H'].
    cbn in H'.
    destruct (dict_get_set_cases Z.eqb Z.eqb_eq _ _ _ _ _ H')
      as [[-> ->] | H''].
    + right. left. reflexivity.
    + left. exact H''.
Qed.

Lemma int2label_complete (l : list (string * Z)) :
  forall (acc : list (Z * string)) (idx : Z),
    In idx (dict_values l) \/ (exists n, dict_get Z.eqb acc idx = Some n) ->
    exists name,
      dict_get Z.eqb
        (fold_left (fun d li => dict_set Z.eqb d (snd li) (fst li)) l acc) idx
      = Some name.
Proof.
  induction l as [|[n i] l IH]; intros acc idx H; cbn.
  - destruct H as [[] | H]. exact H.
  - apply IH. cbn in H.
    destruct H as [[H | H] | (n' & H)].
    + right. subst i. exists n. apply (dict_set_get_same Z.eqb Z.eqb_eq).
    + left. exact H.
    + right. destruct (Z.eq_dec idx i) as [-> | Hne].
      * exists n. apply (dict_set_get_same Z.eqb Z.eqb_eq).
      * exists n'.
        rewrite (dict_set_get_other Z.eqb Z.eqb_eq) by exact Hne. exact H.
Qed.

Lemma count_loop (i2l : list (Z * string)) (u : list (Z * nat)) :
  forall counter : list (string * nat),
    NoDup (dict_keys u) ->
    (forall i1 i2 name,
        dict_get Z.eqb i2l i1 = Some name ->
        dict_get Z.eqb i2l i2 = Some name -> i1 = i2) ->
    (forall ind, In ind (dict_keys u) ->
       exists name,
         dict_get Z.eqb i2l ind = Some name /\
         dict_get String.eqb counter name = Some 0%nat) ->
    exists counter',
      fold_left (count_step i2l) u (Ok counter) = Ok counter' /\
      dict_keys counter' = dict_keys counter /\
      list_sum (dict_values counter')
      = (list_sum (dict_values counter) + list_sum (dict_values u))%nat /\
      (forall name,
          (forall ind, In ind (dict_keys u) ->
                       dict_get Z.eqb i2l ind <> Some name) ->
          dict_get String.eqb counter' name
          = dict_get String.eqb counter name).
Proof.
  induction u as [|[ind c] u IH]; intros counter Hnd Hinj Hres.
  - exists counter. cbn. repeat split; lia.
  - apply NoDup_cons_iff in Hnd. destruct Hnd as [Hfresh Hnd].
    destruct (Hres ind (or_introl eq_refl)) as (name & Hname & Hzero).
    cbn [fold_left]. unfold count_step at 2. cbn [bind fst snd].
    rewrite Hname.
    destruct (IH (dict_set String.eqb counter name c) Hnd Hinj)
      as (counter' & Hrun & Hkeys & Hsum & Hsame).
    { intros ind' Hin'.
      destruct (Hres ind' (or_intror Hin')) as (name' & Hname' & Hzero').
      exists name'. split; [exact Hname'|].
      rewrite (dict_set_get_other String.eqb String.eqb_eq); [exact Hzero'|].
      intros ->. apply Hfresh.
      rewrite (Hinj ind ind' name Hname Hname'). exact Hin'. }
    exists counter'. split; [exact Hrun|].
    split.
    { rewrite Hkeys. apply (dict_set_keys String.eqb String.eqb_eq).
      apply (dict_get_In String.eqb String.eqb_eq) in Hzero.
      apply (in_map fst) in Hzero. exact Hzero. }
    split.
    { rewrite Hsum.
      pose proof (dict_set_sum _ String.eqb counter name 0 c Hzero) as Hd.
      cbn [dict_values map list_sum fold_right snd].
      unfold dict_values, list_sum in *. lia. }
    intros name' Hno. rewrite Hsame.
    + apply (dict_set_get_other String.eqb String.eqb_eq).
      intros ->. apply (Hno ind (or_introl eq_refl)). exact Hname.
    + intros ind' Hin'. apply Hno. right. exact Hin'.
Qed.

Lemma zero_counter_get (keys : list string) (name : string) :
  In name keys ->
  dict_get String.eqb (map (fun k => (k, 0%nat)) keys) name = Some 0%nat.
Proof.
  intros Hin.
  destruct (dict_get_key String.eqb String.eqb_eq
              (map (fun k => (k, 0%nat)) keys) name) as (v & Hv).
  { unfold dict_keys. rewrite map_map. cbn. rewrite map_id. exact Hin. }
  rewrite Hv. f_equal.
  apply (dict_get_In String.eqb String.eqb_eq) in Hv.
  apply in_map_iff in Hv. destruct Hv as (k & E & _). congruence.
Qed.

Lemma zero_counter_sum (keys : list string) :
  list_sum (dict_values (map (fun k => (k, 0%nat)) keys)) = 0%nat.
Proof. induction keys as [|k keys IH]; [reflexivity | exact IH]. Qed.

Lemma label_counts_present (pc : PointCloud) (ls : list Z) :
  labels pc = Some ls ->
  label_definition pc <> [] ->
  NoDup (dict_keys (label_definition pc)) ->
  (forall l, In l ls -> In l (dict_values (label_definition pc))) ->
  exists counter,
    label_counts pc = Ok (Some counter) /\
    dict_keys counter = dict_keys (label_definition pc) /\
    (forall name idx,
        In (name, idx) (label_definition pc) -> ~ In idx ls ->
        dict_get String.eqb counter name = Some 0%nat) /\
    list_sum (dict_values counter) = length ls.
Proof.
  intros Hl Hne Hnd Hdom.
  unfold label_counts, int2label. rewrite Hl.
  remember (label_definition pc) as ld eqn:Eld.
  destruct ld as [|entry ld']; [congruence|].
  remember (entry :: ld') as ld eqn:Eld'. clear Eld' Hne entry ld'.
  rewrite (counter_init (dict_keys ld) [] Hnd) by (intros k _ []).
  cbn [app].
  set (i2l := fold_left (fun d li => dict_set Z.eqb d (snd li) (fst li)) ld []).
  assert (Hsound : forall idx name,
             dict_get Z.eqb i2l idx = Some name -> In (name, idx) ld).
  { intros idx name H.
    destruct (int2label_sound ld [] idx name H) as [H' | H'];
      [discriminate | exact H']. }
  destruct (np_unique_counts_facts ls) as (Hund & Hin & Hsum).
  destruct (count_loop i2l (np_unique_counts ls)
              (map (fun k => (k, 0%nat)) (dict_keys ld)) Hund)
    as (counter & Hrun & Hkeys & Htot & Hsame).
  { intros i1 i2 name H1 H2.
    apply (nodup_keys_functional ld name i1 i2 Hnd);
      apply Hsound; assumption. }
  { intros ind Hind.
    destruct (int2label_complete ld [] ind) as (name & Hname).
    { left. apply Hdom, Hin, Hind. }
    exists name. split; [exact Hname|].
    apply zero_counter_get. apply Hsound in Hname.
    apply (in_map fst) in Hname. exact Hname. }
  exists counter. rewrite Hrun. cbn [bind].
  split; [reflexivity|].
  split.
  { rewrite Hkeys. unfold dict_keys. rewrite map_map. cbn. apply map_id. }
  split.
  { intros name idx Hentry Habsent. rewrite Hsame.
    - apply zero_counter_get. apply (in_map fst) in Hentry. exact Hentry.
    - intros ind Hind Hname. apply Hsound in Hname.
      rewrite (nodup_keys_functional ld name ind idx Hnd Hname Hentry) in Hind.
      apply Habsent, Hin, Hind. }
  rewrite Htot, zero_counter_sum, Hsum. reflexivity.
Qed.

(** C6: on a constructed cloud with labels present, one label per point
    and every label value among the class indices of [label_definition]
    (a dictionary, so its class names are distinct), [label_counts] returns
    a mapping whose keys are exactly the class names of [label_definition],
    so every class appears; a class whose index does not occur has count
    0; and the counts summed over all classes equal the total point count.
    With labels absent, as on every cloud constructed with segmentation
    disabled, it returns [None]. *)
Theorem label_counts_round_trip :
  forall gdc ramp cfg gl path pts ld cols segl it ir wb pc gl',
    PointCloud_init gdc ramp cfg gl path pts ld cols segl it ir wb
    = (Ok pc, gl') ->
    (forall ls,
        labels pc = Some ls ->
        length ls = length (points pc) ->
        NoDup (dict_keys (label_definition pc)) ->
        (forall l, In l ls -> In l (dict_values (label_definition pc))) ->
        exists counter,
          label_counts pc = Ok (Some counter) /\
          dict_keys counter = dict_keys (label_definition pc) /\
          (forall name,
              In name (dict_keys (label_definition pc)) ->
              exists n, dict_get String.eqb counter name = Some n) /\
          (forall name idx,
              In (name, idx) (label_definition pc) -> ~ In idx ls ->
              dict_get String.eqb counter name = Some 0%nat) /\
          list_sum (dict_values counter) = get_no_of_points pc) /\
    (labels pc = None -> label_counts pc = Ok None) /\
    (SEGMENTATION cfg = false ->
     labels pc = None /\ label_counts pc = Ok None).
Proof.
  intros gdc ramp cfg gl path pts ld cols segl it ir wb pc gl' H.
  assert (Hnone : labels pc = None -> label_counts pc = Ok None).
  { intros E. unfold label_counts. rewrite E. reflexivity. }
  destruct (PointCloud_init_fields _ _ _ _ _ _ _ _ _ _ _ _ _ _ H)
    as (Hne & Hp & _).
  split.
  - intros ls Hl Hlen Hnd Hdom.
    assert (Hld : label_definition pc <> []).
    { rewrite Hp in Hlen. destruct ls as [|l ls'].
      - destruct pts; [congruence | discriminate].
      - intros E. specialize (Hdom l (or_introl eq_refl)).
        rewrite E in Hdom. destruct Hdom. }
    destruct (label_counts_present pc ls Hl Hld Hnd Hdom)
      as (counter & Hc & Hk & Hz & Hs).
    exists counter. split; [exact Hc|]. split; [exact Hk|].
    split.
    { intros name Hname. apply (dict_get_key String.eqb String.eqb_eq).
      rewrite Hk. exact Hname. }
    split; [exact Hz|].
    unfold get_no_of_points. congruence.
  - split; [exact Hnone|].
    intros Hseg.
    assert (Hl : labels pc = None).
    { destruct (PointCloud_init_ok _ _ _ _ _ _ _ _ _ _ _ _ _ _ H)
        as (c & mins & maxs & cs & _ & _ & _ & _ & Hpc).
      destruct Hpc as [-> | (names & ->)]; cbn; rewrite Hseg; reflexivity. }
    split; [exact Hl | exact (Hnone Hl)].
Qed.

Lemma label_counts_round_trip_witness :
  exists pc,
    PointCloud_init sample_palette sample_ramp sample_seg_config gl_empty
      "cloud.pcd"%string [(0, 0, 0); (1, 0, 0); (0, 1, 0)]
      [("unlabeled"%string, 0%Z); ("car"%string, 1%Z); ("tree"%string, 2%Z)]
      None (Some [1%Z; 0%Z; 1%Z]) None None false
    = (Ok pc, gl_empty) /\
    exists counter,
      label_counts pc = Ok (Some counter) /\
      dict_get String.eqb counter "tree"%string = Some 0%nat /\
      list_sum (dict_values counter) = get_no_of_points pc.
Proof.
  eexists. split; [reflexivity|].
  destruct (label_counts_round_trip sample_palette sample_ramp
              sample_seg_config gl_empty "cloud.pcd"%string
              [(0, 0, 0); (1, 0, 0); (0, 1, 0)]
              [("unlabeled"%string, 0%Z); ("car"%string, 1%Z);
               ("tree"%string, 2%Z)]
              None (Some [1%Z; 0%Z; 1%Z]) None None false _ _ eq_refl)
    as [H _].
  destruct (H [1%Z; 0%Z; 1%Z] eq_refl) as (counter & Hc & _ & _ & Hz & Hs).
  - reflexivity.
  - cbn. repeat constructor; cbn; intuition discriminate.
  - cbn. intros l [<- | [<- | [<- | []]]]; auto.
  - exists counter. split; [exact Hc|].
    split; [|exact Hs].
    apply (Hz "tree"%string 2%Z).
    + cbn. auto.
    + cbn. intros [E | [E | [E | []]]]; discriminate.
Defined.

(** * Further properties of the module *)

(** ** Rotation setters: writing back a stored rotation *)

Lemma py_mod_small (x : R) : 0 <= x < 360 -> py_mod x 360 = x.
Proof.
  intros H. rewrite (py_mod_eq x 360 0); lra.
Qed.

(** X2: an angle already in [0, 360) is stored unchanged, so writing back
    a rotation that lies in [0, 360) changes nothing: the setters applied
    to the object's own rotation components return the object itself. *)
Theorem rotation_setters_fixed_point (pc : PointCloud) :
  rot_in_range (get_rotations pc) ->
  set_rotations pc (rot_x pc) (rot_y pc) (rot_z pc) = pc /\
  set_rot_x pc (rot_x pc) = pc /\
  set_rot_y pc (rot_y pc) = pc /\
  set_rot_z pc (rot_z pc) = pc.
Proof.
  intros (Hx & Hy & Hz). cbn in Hx, Hy, Hz.
  unfold set_rot_x, set_rot_y, set_rot_z, set_rotations, with_rot.
  rewrite !py_mod_small by assumption.
  destruct pc; cbn. repeat split.
Qed.

Lemma rotation_setters_fixed_point_witness :
  rot_in_range (get_rotations (set_rotations sample_cloud 90 180 270)) /\
  set_rot_y (set_rotations sample_cloud 90 180 270)
    (rot_y (set_rotations sample_cloud 90 180 270))
  = set_rotations sample_cloud 90 180 270.
Proof.
  assert (H : rot_in_range (get_rotations (set_rotations sample_cloud 90 180 270))).
  { unfold rot_in_range; cbn. repeat split; apply py_mod_range; lra. }
  split; [exact H|].
  destruct (rotation_setters_fixed_point
              (set_rotations sample_cloud 90 180 270) H) as (_ & _ & Hy & _).
  exact Hy.
Defined.

(** ** Pose mutations and the rest of the object *)

Lemma same_data_refl (a : PointCloud) : same_data a a.
Proof. unfold same_data. repeat split. Qed.

Lemma same_data_trans (a b c : PointCloud) :
  same_data a b -> same_data b c -> same_data a c.
Proof.
  unfold same_data. intros H1 H2.
  decompose [and] H1. decompose [and] H2. repeat split; congruence.
Qed.

Lemma apply_mutation_same_data (pc : PointCloud) (m : Mutation) :
  same_data (apply_mutation pc m) pc.
Proof. destruct m; unfold same_data; cbn; repeat split. Qed.

Lemma run_same_data (ms : list Mutation) : forall pc,
  same_data (run pc ms) pc.
Proof.
  induction ms as [|m ms IH]; intros pc; [apply same_data_refl|].
  unfold run in *. cbn [fold_left].
  apply (same_data_trans _ (apply_mutation pc m)); [apply IH|].
  apply apply_mutation_same_data.
Qed.

Lemma same_data_queries (a b : PointCloud) :
  same_data a b ->
  label_colors a = label_colors b /\
  label_counts a = label_counts b /\
  get_no_of_points a = get_no_of_points b /\
  get_no_of_colors a = get_no_of_colors b /\
  get_mins_maxs a = get_mins_maxs b /\
  colorless a = colorless b.
Proof.
  unfold same_data. intros H. decompose [and] H.
  unfold label_colors, label_counts, int2label, get_no_of_points,
    get_no_of_colors, get_mins_maxs, colorless.
  repeat match goal with E : _ a = _ b |- _ => rewrite E; clear E end.
  repeat split.
Qed.

Lemma same_data_reset (a b : PointCloud) :
  same_data a b -> reset_perspective a = reset_perspective b.
Proof.
  unfold same_data. intros H. decompose [and] H.
  destruct a, b; cbn in *; subst. reflexivity.
Qed.

(** X3: no sequence of pose mutations (setters, reset) changes the data of
    the cloud: points, colours, labels, palette, buffers, centre, extents
    and the recorded initial pose stay as they were, and so do the results
    of [label_colors], [label_counts], [get_no_of_points],
    [get_no_of_colors], [get_mins_maxs] and [colorless]. *)
Theorem pose_mutations_keep_data (pc : PointCloud) (ms : list Mutation) :
  same_data (run pc ms) pc /\
  label_colors (run pc ms) = label_colors pc /\
  label_counts (run pc ms) = label_counts pc /\
  get_no_of_points (run pc ms) = get_no_of_points pc /\
  get_no_of_colors (run pc ms) = get_no_of_colors pc /\
  get_mins_maxs (run pc ms) = get_mins_maxs pc /\
  colorless (run pc ms) = colorless pc.
Proof.
  split; [apply run_same_data|].
  apply same_data_queries, run_same_data.
Qed.

(** X4: [reset_perspective] forgets every earlier pose mutation: resetting
    after any sequence of mutations gives the same object as resetting at
    once; the rotation it leaves is the recorded [init_rotation]; and a
    second reset changes nothing. *)
Theorem reset_perspective_absorbs (pc : PointCloud) (ms : list Mutation) :
  reset_perspective (run pc ms) = reset_perspective pc /\
  get_rotations (reset_perspective (run pc ms)) = init_rotation pc /\
  reset_perspective (reset_perspective pc) = reset_perspective pc.
Proof.
  split; [apply same_data_reset, run_same_data|].
  split; [apply reset_after_run|].
  destruct pc; cbn. reflexivity.
Qed.

(** ** Extents and centre *)

Lemma vle_refl (a : Point3D) : vle a a.
Proof. unfold vle. repeat split; apply Rle_refl. Qed.

Lemma vle_trans (a b c : Point3D) : vle a b -> vle b c -> vle a c.
Proof. unfold vle. intros (?&?&?) (?&?&?). repeat split; lra. Qed.

Lemma vmin_le_l (a b : Point3D) : vle (vmin a b) a.
Proof. unfold vle, vmin; cbn. repeat split; apply Rmin_l. Qed.

Lemma vmin_le_r (a b : Point3D) : vle (vmin a b) b.
Proof. unfold vle, vmin; cbn. repeat split; apply Rmin_r. Qed.

Lemma vmax_ge_l (a b : Point3D) : vle a (vmax a b).
Proof. unfold vle, vmax; cbn. repeat split; apply Rmax_l. Qed.

Lemma vmax_ge_r (a b : Point3D) : vle b (vmax a b).
Proof. unfold vle, vmax; cbn. repeat split; apply Rmax_r. Qed.

Lemma fold_vmin_lower (ps : list Point3D) : forall p q,
  In q (p :: ps) -> vle (fold_left vmin ps p) q.
Proof.
  induction ps as [|r ps IH]; intros p q Hq; cbn [fold_left].
  - destruct Hq as [<- | []]. apply vle_refl.
  - destruct Hq as [<- | [<- | Hq]].
    + apply (vle_trans _ (vmin p r)); [|apply vmin_le_l].
      apply IH. left. reflexivity.
    + apply (vle_trans _ (vmin p r)); [|apply vmin_le_r].
      apply IH. left. reflexivity.
    + apply IH. right. exact Hq.
Qed.

Lemma fold_vmax_upper (ps : list Point3D) : forall p q,
  In q (p :: ps) -> vle q (fold_left vmax ps p).
Proof.
  induction ps as [|r ps IH]; intros p q Hq; cbn [fold_left].
  - destruct Hq as [<- | []]. apply vle_refl.
  - destruct Hq as [<- | [<- | Hq]].
    + apply (vle_trans _ (vmax p r)); [apply vmax_ge_l|].
      apply IH. left. reflexivity.
    + apply (vle_trans _ (vmax p r)); [apply vmax_ge_r|].
      apply IH. left. reflexivity.
    + apply IH. right. exact Hq.
Qed.

Lemma fold_attained (f : Point3D -> Point3D -> Point3D)
  (ax : Point3D -> R) :
  (forall a b, ax (f a b) = ax a \/ ax (f a b) = ax b) ->
  forall ps p, exists q, In q (p :: ps) /\ ax q = ax (fold_left f ps p).
Proof.
  intros Hf. induction ps as [|r ps IH]; intros p; cbn [fold_left].
  - exists p. split; [left|]; reflexivity.
  - destruct (IH (f p r)) as (q & [<- | Hq] & Hax).
    + destruct (Hf p r) as [E | E].
      * exists p. split; [left; reflexivity | congruence].
      * exists r. split; [right; left; reflexivity | congruence].
    + exists q. split; [right; right; exact Hq | exact Hax].
Qed.

Lemma vmin_axis (a b : Point3D) :
  (px (vmin a b) = px a \/ px (vmin a b) = px b) /\
  (py (vmin a b) = py a \/ py (vmin a b) = py b) /\
  (pz (vmin a b) = pz a \/ pz (vmin a b) = pz b).
Proof.
  unfold vmin; cbn. repeat split;
    match goal with |- Rmin ?x ?y = _ \/ _ =>
      unfold Rmin; destruct (Rle_dec x y); auto end.
Qed.

Lemma vmax_axis (a b : Point3D) :
  (px (vmax a b) = px a \/ px (vmax a b) = px b) /\
  (py (vmax a b) = py a \/ py (vmax a b) = py b) /\
  (pz (vmax a b) = pz a \/ pz (vmax a b) = pz b).
Proof.
  unfold vmax; cbn. repeat split;
    match goal with |- Rmax ?x ?y = _ \/ _ =>
      unfold Rmax; destruct (Rle_dec x y); auto end.
Qed.

Lemma extents_facts (pts : list Point3D) (mins maxs : Point3D) :
  np_amin pts = Ok mins -> np_amax pts = Ok maxs ->
  (forall q, In q pts -> vle mins q /\ vle q maxs) /\
  (exists q, In q pts /\ px q = px mins) /\
  (exists q, In q pts /\ py q = py mins) /\
  (exists q, In q pts /\ pz q = pz mins) /\
  (exists q, In q pts /\ px q = px maxs) /\
  (exists q, In q pts /\ py q = py maxs) /\
  (exists q, In q pts /\ pz q = pz maxs).
Proof.
  destruct pts as [|p ps]; [discriminate|]. cbn.
  intros Hmin Hmax. injection Hmin as <-. injection Hmax as <-.
  split.
  { intros q Hq. split; [apply fold_vmin_lower | apply fold_vmax_upper];
      exact Hq. }
  repeat split;
    (apply (fold_attained vmin); intros a b; apply vmin_axis) ||
    (apply (fold_attained vmax); intros a b; apply vmax_axis).
Qed.

(** X6: the extents stored at construction are the bounding box of the
    points: every point lies between [pcd_mins] and [pcd_maxs] on each
    axis (so [get_min_max_height] brackets every height), and each of the
    six bounds is the coordinate of some point of the cloud. *)
Theorem extents_are_bounding_box :
  forall gdc ramp cfg gl path pts ld cols segl it ir wb pc gl',
    PointCloud_init gdc ramp cfg gl path pts ld cols segl it ir wb
    = (Ok pc, gl') ->
    (forall q, In q (points pc) ->
       vle (fst (get_mins_maxs pc)) q /\ vle q (snd (get_mins_maxs pc)) /\
       fst (get_min_max_height pc) <= pz q <= snd (get_min_max_height pc)) /\
    vle (pcd_mins pc) (pcd_maxs pc) /\
    (exists q, In q (points pc) /\ px q = px (pcd_mins pc)) /\
    (exists q, In q (points pc) /\ py q = py (pcd_mins pc)) /\
    (exists q, In q (points pc) /\ pz q = pz (pcd_mins pc)) /\
    (exists q, In q (points pc) /\ px q = px (pcd_maxs pc)) /\
    (exists q, In q (points pc) /\ py q = py (pcd_maxs pc)) /\
    (exists q, In q (points pc) /\ pz q = pz (pcd_maxs pc)).
Proof.
  intros gdc ramp cfg gl path pts ld cols segl it ir wb pc gl' H.
  destruct (PointCloud_init_fields _ _ _ _ _ _ _ _ _ _ _ _ _ _ H)
    as (Hne & Hp & _ & Hmin & Hmax & _).
  rewrite Hp.
  destruct (extents_facts pts _ _ Hmin Hmax) as (Hbox & Hatt).
  split.
  { intros q Hq. destruct (Hbox q Hq) as [Hlo Hhi].
    unfold get_mins_maxs, get_min_max_height; cbn [fst snd].
    split; [exact Hlo|]. split; [exact Hhi|].
    destruct Hlo as (_ & _ & Hlo). destruct Hhi as (_ & _ & Hhi). lra. }
  split; [|exact Hatt].
  destruct pts as [|p ps]; [congruence|].
  destruct (Hbox p (or_introl eq_refl)) as [Hlo Hhi].
  apply (vle_trans _ p); assumption.
Qed.

Lemma extents_are_bounding_box_witness :
  exists pc,
    PointCloud_init sample_palette sample_ramp sample_config gl_empty
      "cloud.pcd"%string [(0, 0, 0); (2, 0, 0); (0, 2, 0); (0, 0, 2)] []
      None None None None false = (Ok pc, gl_empty) /\
    vle (pcd_mins pc) (pcd_maxs pc).
Proof.
  eexists. split; [reflexivity|].
  destruct (extents_are_bounding_box sample_palette sample_ramp sample_config
              gl_empty "cloud.pcd"%string
              [(0, 0, 0); (2, 0, 0); (0, 2, 0); (0, 0, 2)] []
              None None None None false _ _ eq_refl) as (_ & H & _).
  exact H.
Defined.

(** ** The pose and label state a completed [__init__] leaves *)

Lemma triple_eta (t : Point3D) : (px t, py t, pz t) = t.
Proof. destruct t as [[x y] z]. reflexivity. Qed.

Lemma PointCloud_init_state :
  forall gdc ramp cfg gl path pts ld cols segl it ir wb pc gl',
    PointCloud_init gdc ramp cfg gl path pts ld cols segl it ir wb
    = (Ok pc, gl') ->
    init_translation pc
    = match it with
      | Some t => t
      | None => calculate_init_translation cfg (center pc) (pcd_mins pc)
                  (pcd_maxs pc)
      end /\
    init_rotation pc = match ir with Some r => r | None => (0, 0, 0) end /\
    get_translation pc = init_translation pc /\
    get_rotations pc = init_rotation pc /\
    label_definition pc = ld /\
    labels pc = (if SEGMENTATION cfg then segl else None) /\
    label_color_map pc
    = (if SEGMENTATION cfg then Some (gdc (length ld)) else None) /\
    mix_ratio pc
    = (if SEGMENTATION cfg then Some (label_color_mix_ratio cfg) else None) /\
    (wb = false -> vbos pc = None /\ gl' = gl).
Proof.
  intros gdc ramp cfg gl path pts ld cols segl it ir wb pc gl' H.
  pose proof H as H0. rewrite PointCloud_init_unfold in H0.
  destruct (PointCloud_init_ok _ _ _ _ _ _ _ _ _ _ _ _ _ _ H)
    as (c & mins & maxs & cs & Hc & Hmin & Hmax & Hf & Hpc).
  rewrite Hc, Hmin, Hmax, Hf in H0.
  assert (Hall :
    init_translation pc
    = match it with
      | Some t => t
      | None => calculate_init_translation cfg (center pc) (pcd_mins pc)
                  (pcd_maxs pc)
      end /\
    init_rotation pc = match ir with Some r => r | None => (0, 0, 0) end /\
    get_translation pc = init_translation pc /\
    get_rotations pc = init_rotation pc /\
    label_definition pc = ld /\
    labels pc = (if SEGMENTATION cfg then segl else None) /\
    label_color_map pc
    = (if SEGMENTATION cfg then Some (gdc (length ld)) else None) /\
    mix_ratio pc
    = (if SEGMENTATION cfg then Some (label_color_mix_ratio cfg) else None)).
  { destruct Hpc as [-> | (names & ->)];
      unfold get_translation, get_rotations; cbn;
      rewrite !triple_eta; repeat split. }
  decompose [and] Hall. repeat (split; [assumption|]).
  intros ->. injection H0 as <- <-. split; reflexivity.
Qed.

(** X8: a completed construction starts the live pose at the recorded one;
    a supplied initial translation or rotation is recorded exactly as
    given (the rotation is not reduced modulo 360); without them the
    translation is [calculate_init_translation] of the centre and extents
    and the rotation is (0, 0, 0). *)
Theorem constructed_pose_is_initial_pose :
  forall gdc ramp cfg gl path pts ld cols segl it ir wb pc gl',
    PointCloud_init gdc ramp cfg gl path pts ld cols segl it ir wb
    = (Ok pc, gl') ->
    get_translation pc = init_translation pc /\
    get_rotations pc = init_rotation pc /\
    (forall t, it = Some t -> init_translation pc = t) /\
    (forall r, ir = Some r -> init_rotation pc = r) /\
    (it = None ->
     init_translation pc
     = calculate_init_translation cfg (center pc) (pcd_mins pc) (pcd_maxs pc)) /\
    (ir = None -> init_rotation pc = (0, 0, 0)).
Proof.
  intros gdc ramp cfg gl path pts ld cols segl it ir wb pc gl' H.
  destruct (PointCloud_init_state _ _ _ _ _ _ _ _ _ _ _ _ _ _ H)
    as (Hit & Hir & Ht & Hr & _).
  split; [exact Ht|]. split; [exact Hr|].
  split; [intros t ->; exact Hit|].
  split; [intros r ->; exact Hir|].
  split; [intros ->; exact Hit | intros ->; exact Hir].
Qed.

Lemma constructed_pose_is_initial_pose_witness :
  exists pc,
    PointCloud_init sample_palette sample_ramp sample_config gl_empty
      "cloud.pcd"%string [(0, 0, 0); (2, 0, 0)] []
      None None (Some (1, 2, 3)) (Some (400, 0, 0)) false
    = (Ok pc, gl_empty) /\
    get_translation pc = init_translation pc /\
    get_rotations pc = init_rotation pc.
Proof.
  eexists. split; [reflexivity|].
  destruct (constructed_pose_is_initial_pose sample_palette sample_ramp
              sample_config gl_empty "cloud.pcd"%string
              [(0, 0, 0); (2, 0, 0)] [] None None (Some (1, 2, 3))
              (Some (400, 0, 0)) false _ _ eq_refl) as (Ht & Hr & _).
  split; assumption.
Defined.

Lemma np_linalg_norm_zero : np_linalg_norm (0, 0, 0) = 0.
Proof. apply np_linalg_norm_z. lra. Qed.

(** X9: where the clamp does not bite, the initial translation backs off
    by the full diagonal: if the diagonal is at most 0.9 * far_plane the
    result is (-cx, -cy, -(cz + diagonal)); otherwise it is
    (-cx, -cy, -(cz + 0.9 * far_plane)).  The x and y components are
    always the negated centre. *)
Theorem calculate_init_translation_cases
  (cfg : Config) (c mins maxs : Point3D) :
  let diag := np_linalg_norm (vsub maxs mins) in
  let r := calculate_init_translation cfg c mins maxs in
  px r = - px c /\ py r = - py c /\
  (diag <= far_plane cfg * (9 / 10) -> pz r = - (pz c + diag)) /\
  (far_plane cfg * (9 / 10) <= diag ->
   pz r = - (pz c + far_plane cfg * (9 / 10))).
Proof.
  intros diag r. subst r. unfold calculate_init_translation. fold diag.
  destruct c as [[x y] z]. cbn.
  split; [ring|]. split; [ring|].
  split; intros H; [rewrite Rmin_left | rewrite Rmin_right];
    try exact H; reflexivity.
Qed.

Lemma calculate_init_translation_cases_witness :
  np_linalg_norm (vsub (0, 0, 3) (0, 0, 0)) <= far_plane sample_config * (9 / 10) /\
  pz (calculate_init_translation sample_config (0, 0, 1) (0, 0, 0) (0, 0, 3))
  = - (1 + np_linalg_norm (vsub (0, 0, 3) (0, 0, 0))).
Proof.
  assert (H : np_linalg_norm (vsub (0, 0, 3) (0, 0, 0))
              <= far_plane sample_config * (9 / 10)).
  { unfold vsub; cbn. replace (0 - 0) with 0 by ring.
    replace (3 - 0) with 3 by ring. rewrite np_linalg_norm_z; lra. }
  split; [exact H|].
  destruct (calculate_init_translation_cases sample_config (0, 0, 1)
              (0, 0, 0) (0, 0, 3)) as (_ & _ & Hz & _).
  exact (Hz H).
Defined.

(** X10: a cloud of one point has that point as centre and as both
    extents, and with a non-negative far plane and no supplied perspective
    it is placed at the negated point with rotation (0, 0, 0): the zoom is
    zero because the diagonal is. *)
Theorem single_point_cloud :
  forall gdc ramp cfg gl path p ld cols segl wb pc gl',
    0 <= far_plane cfg ->
    PointCloud_init gdc ramp cfg gl path [p] ld cols segl None None wb
    = (Ok pc, gl') ->
    center pc = p /\ pcd_mins pc = p /\ pcd_maxs pc = p /\
    get_translation pc = vneg p /\ get_rotations pc = (0, 0, 0).
Proof.
  intros gdc ramp cfg gl path p ld cols segl wb pc gl' Hf H.
  destruct (PointCloud_init_fields _ _ _ _ _ _ _ _ _ _ _ _ _ _ H)
    as (_ & _ & Hc & Hmin & Hmax & _).
  destruct (PointCloud_init_state _ _ _ _ _ _ _ _ _ _ _ _ _ _ H)
    as (Hit & Hir & Ht & Hr & _).
  cbn in Hmin, Hmax. injection Hmin as Hmin. injection Hmax as Hmax.
  assert (Hce : center pc = p).
  { unfold compute_center, np_sum_axis in Hc. cbn in Hc.
    injection Hc as Hc. rewrite <- Hc. destruct p as [[x y] z]. cbn.
    repeat f_equal; field. }
  split; [exact Hce|]. split; [symmetry; exact Hmin|].
  split; [symmetry; exact Hmax|].
  rewrite Ht, Hr, Hit, Hir, Hce, <- Hmin, <- Hmax.
  split; [|reflexivity].
  unfold calculate_init_translation.
  replace (vsub p p) with ((0, 0, 0) : Point3D)
    by (destruct p as [[x y] z]; unfold vsub; cbn; repeat f_equal; ring).
  rewrite np_linalg_norm_zero, Rmin_left by lra.
  destruct p as [[x y] z]. unfold vneg, vadd; cbn. repeat f_equal; ring.
Qed.

Lemma single_point_cloud_witness :
  exists pc,
    0 <= far_plane sample_config /\
    PointCloud_init sample_palette sample_ramp sample_config gl_empty
      "cloud.pcd"%string [(1, 2, 3)] [] None None None None false
    = (Ok pc, gl_empty) /\
    get_translation pc = vneg (1, 2, 3).
Proof.
  assert (Hf : 0 <= far_plane sample_config) by (cbn; lra).
  eexists. split; [exact Hf|]. split; [reflexivity|].
  destruct (single_point_cloud sample_palette sample_ramp sample_config
              gl_empty "cloud.pcd"%string (1, 2, 3) [] None None false
              _ _ Hf eq_refl) as (_ & _ & _ & Ht & _).
  exact Ht.
Defined.

(** X11: when colours must be synthesised from the flat colour and the
    configured COLORLESS_COLOR has neither one nor three entries, the
    constructor raises [ValueError] and no buffer is generated, whatever
    [write_buffer] says. *)
Theorem init_rejects_bad_flat_color :
  forall gdc ramp cfg gl path p ps ld cols segl it ir wb,
    cols = None \/ cols = Some [] ->
    COLORLESS_COLORIZE cfg = false ->
    length (COLORLESS_COLOR cfg) <> 1%nat ->
    length (COLORLESS_COLOR cfg) <> 3%nat ->
    PointCloud_init gdc ramp cfg gl path (p :: ps) ld cols segl it ir wb
    = (Raise ValueError, gl).
Proof.
  intros gdc ramp cfg gl path p ps ld cols segl it ir wb Hcols Hz H1 H3.
  rewrite PointCloud_init_unfold.
  cbn [compute_center np_amin np_amax].
  unfold fill_colors, colorless. cbn [colors pre_color_cloud points].
  assert (Hc : match cols with Some (x :: xs) => Some (x :: xs) | _ => None end
               = None) by (destruct Hcols as [-> | ->]; reflexivity).
  rewrite Hc, Hz. unfold ones_like_times.
  destruct (COLORLESS_COLOR cfg) as [|a [|b [|c [|d l]]]]; cbn in *;
    try reflexivity; congruence.
Qed.

Lemma init_rejects_bad_flat_color_witness :
  PointCloud_init sample_palette sample_ramp
    (mkConfig 10 false (1 / 2) false [1 / 2; 1 / 2] false 1) gl_empty
    "cloud.pcd"%string ((0, 0, 0) :: [(1, 0, 0)]) [] None None None None true
  = (Raise ValueError, gl_empty).
Proof.
  apply init_rejects_bad_flat_color.
  - left. reflexivity.
  - reflexivity.
  - cbn. lia.
  - cbn. lia.
Defined.

(** ** More on the label-colour blend *)

Lemma mapM_exists {A B : Type} (f : A -> result B) (l : list A) :
  (forall a, In a l -> exists b, f a = Ok b) ->
  exists l', mapM f l = Ok l'.
Proof.
  induction l as [|x l IH]; cbn; intros H; [eexists; reflexivity|].
  destruct (H x (or_introl eq_refl)) as (b & ->). cbn.
  destruct IH as (bs & ->); [intros a Ha; apply H; right; exact Ha|].
  cbn. eexists; reflexivity.
Qed.

Lemma np_index_valid (n : nat) (l : Z) :
  (- Z.of_nat n <= l < Z.of_nat n)%Z -> exists j, np_index n l = Ok j.
Proof.
  intros H. destruct (Z_lt_le_dec l 0).
  - eexists. apply np_index_wraps. lia.
  - eexists. apply np_index_in_range. lia.
Qed.

Lemma np_take_eye_valid (n : nat) (ls : list Z) :
  (forall l, In l ls -> (- Z.of_nat n <= l < Z.of_nat n)%Z) ->
  exists rows, np_take (np_eye n) ls = Ok rows /\ length rows = length ls.
Proof.
  intros H. unfold np_take.
  destruct (mapM_exists
              (fun i => j <- np_index (length (np_eye n)) i ;;
                        Ok (nth j (np_eye n) [])) ls) as (rows & Hrows).
  { intros l Hl. rewrite length_np_eye.
    destruct (np_index_valid n l (H l Hl)) as (j & ->). cbn.
    eexists; reflexivity. }
  exists rows. split; [exact Hrows|]. apply (mapM_length _ _ _ Hrows).
Qed.

Lemma np_add_mismatch (a b : list RGB) :
  length a <> length b -> length a <> 1%nat -> length b <> 1%nat ->
  np_add a b = Raise ValueError.
Proof.
  intros Hab Ha Hb. unfold np_add.
  destruct (Nat.eqb_spec (length a) (length b)); [contradiction|].
  destruct a as [|x0 [|x1 a]]; destruct b as [|y0 [|y1 b]];
    cbn in *; try reflexivity; congruence.
Qed.

(** X13: the blend's own shape check.  With every label a valid palette
    index and a palette of one colour per class, if labels and colours
    have different lengths and neither length is one, [label_colors]
    raises [ValueError] (numpy cannot broadcast the two arrays). *)
Theorem label_colors_shape_error (pc : PointCloud)
  (ls : list Z) (cs lcm : list RGB) (mix : R) :
  labels pc = Some ls -> colors pc = Some cs ->
  label_color_map pc = Some lcm -> mix_ratio pc = Some mix ->
  length lcm = length (label_definition pc) ->
  (forall l, In l ls ->
     (- Z.of_nat (length lcm) <= l < Z.of_nat (length lcm))%Z) ->
  length ls <> length cs -> length ls <> 1%nat -> length cs <> 1%nat ->
  label_colors pc = Raise ValueError.
Proof.
  intros Hl Hc Hm Hx Hk Hvalid Hne H1 H2.
  unfold label_colors. rewrite Hl, Hm, Hx, Hc, <- Hk.
  destruct (np_take_eye_valid _ _ Hvalid) as (rows & -> & Hlen). cbn [bind].
  unfold np_dot. rewrite Nat.eqb_refl. cbn [bind].
  rewrite np_add_mismatch; [reflexivity | | |];
    rewrite ?length_map, ?Hlen; assumption.
Qed.

Lemma label_colors_shape_error_witness :
  exists pc,
    PointCloud_init sample_palette sample_ramp sample_seg_config gl_empty
      "cloud.pcd"%string [(0, 0, 0); (1, 0, 0); (0, 1, 0)]
      [("car"%string, 0%Z)]
      (Some [(1, 0, 0); (0, 1, 0)]) (Some [0%Z; 0%Z; 0%Z]) None None false
    = (Ok pc, gl_empty) /\
    label_colors pc = Raise ValueError.
Proof.
  eexists. split; [reflexivity|].
  eapply (label_colors_shape_error _ [0%Z; 0%Z; 0%Z]
            [(1, 0, 0); (0, 1, 0)] (sample_palette 1) (3 / 10)).
  - reflexivity.
  - reflexivity.
  - reflexivity.
  - reflexivity.
  - reflexivity.
  - cbn. intros l [<- | [<- | [<- | []]]]; lia.
  - cbn. lia.
  - cbn. lia.
  - cbn. lia.
Defined.

(** X14: negative labels count from the end of the palette.  Wherever the
    blend returns an array, an index whose label [l] satisfies
    [-K <= l < 0], K the palette size, is coloured with palette entry
    [K + l]; the label -1 takes the last class colour. *)
Theorem label_colors_negative_label (pc : PointCloud)
  (ls : list Z) (cs lcm out : list RGB) (mix : R) (i : nat) (l : Z) (c : RGB) :
  labels pc = Some ls -> colors pc = Some cs ->
  label_color_map pc = Some lcm -> mix_ratio pc = Some mix ->
  label_colors pc = Ok (Some out) ->
  nth_error ls i = Some l -> nth_error cs i = Some c ->
  (- Z.of_nat (length lcm) <= l < 0)%Z ->
  nth_error out i
  = Some (blend_spec mix
            (nth (Z.to_nat (l + Z.of_nat (length lcm))) lcm vzero) c).
Proof.
  intros Hl Hc Hm Hx Hout Hi Hci Hrange.
  destruct (label_colors_inv pc ls _ Hl Hout)
    as (rows & lcm' & mix' & cs' & out' & Ht & Hm' & Hk & Hx' & Hc' & Ha & E).
  assert (lcm' = lcm) as -> by congruence.
  assert (mix' = mix) as -> by congruence.
  assert (cs' = cs) as -> by congruence.
  injection E as <-.
  destruct (np_take_eye_nth _ _ _ _ _ Ht Hi) as (j & Hj & Hrow).
  rewrite Hk, (np_index_wraps _ _ Hrange) in Hj. injection Hj as <-.
  assert (Hai :
    nth_error (map (fun c0 => vscale c0 mix)
                 (map (fun row => np_dot_row row lcm) rows)) i
    = Some (vscale (np_dot_row (np_eye_row (length (label_definition pc))
                      (Z.to_nat (l + Z.of_nat (length lcm)))) lcm) mix))
    by (rewrite !nth_error_map, Hrow; reflexivity).
  assert (Hbi :
    nth_error (map (fun c0 => vscale c0 (1 - mix)) cs) i
    = Some (vscale c (1 - mix)))
    by (exact (map_nth_error _ _ _ Hci)).
  rewrite (np_add_nth_error _ _ _ i _ _ Ha Hai Hbi).
  f_equal. rewrite Hk, np_dot_row_eye by (try reflexivity; lia).
  generalize (nth (Z.to_nat (l + Z.of_nat (length lcm))) lcm vzero).
  intros x. unfold blend_spec. vec_ring.
Qed.

Lemma label_colors_negative_label_witness :
  exists pc out,
    PointCloud_init sample_palette sample_ramp sample_seg_config gl_empty
      "cloud.pcd"%string [(0, 0, 0)]
      [("car"%string, 0%Z); ("tree"%string, 1%Z)]
      (Some [(1, 0, 0)]) (Some [(-1)%Z]) None None false
    = (Ok pc, gl_empty) /\
    label_colors pc = Ok (Some out) /\
    nth_error out 0
    = Some (blend_spec (3 / 10) (nth 1 (sample_palette 2) vzero) (1, 0, 0)).
Proof.
  eexists. eexists. split; [reflexivity|].
  match goal with |- label_colors ?p = _ /\ _ => set (pc0 := p) end.
  split; [reflexivity|].
  apply (label_colors_negative_label pc0 [(-1)%Z] [(1, 0, 0)]
           (sample_palette 2) _ (3 / 10) 0%nat (-1)%Z (1, 0, 0));
    try reflexivity.
  cbn. lia.
Defined.

(** ** [int2label] and exact label counts *)

Lemma nodup_values_functional {K V : Type} (d : list (K * V))
  (k1 k2 : K) (v : V) :
  NoDup (dict_values d) -> In (k1, v) d -> In (k2, v) d -> k1 = k2.
Proof.
  induction d as [|[k' v'] d IH]; cbn; intros Hnd H1 H2; [destruct H1|].
  apply NoDup_cons_iff in Hnd. destruct Hnd as [Hn Hnd].
  assert (Hin : forall k, In (k, v') d -> False).
  { intros k Hk. apply Hn. apply (in_map snd) in Hk. exact Hk. }
  destruct H1 as [H1 | H1]; destruct H2 as [H2 | H2].
  - congruence.
  - injection H1 as -> ->. exfalso. apply (Hin k2). exact H2.
  - injection H2 as -> ->. exfalso. apply (Hin k1). exact H1.
  - apply IH; assumption.
Qed.

Lemma int2label_facts (pc : PointCloud) :
  exists i2l,
    int2label pc = Some i2l /\
    (forall idx name,
        dict_get Z.eqb i2l idx = Some name ->
        In (name, idx) (label_definition pc)) /\
    (forall idx,
        In idx (dict_values (label_definition pc)) ->
        exists name, dict_get Z.eqb i2l idx = Some name) /\
    (forall idx,
        ~ In idx (dict_values (label_definition pc)) ->
        dict_get Z.eqb i2l idx = None) /\
    (NoDup (dict_values (label_definition pc)) ->
     forall name idx,
       dict_get String.eqb (label_definition pc) name = Some idx ->
       dict_get Z.eqb i2l idx = Some name).
Proof.
  eexists. split; [reflexivity|].
  set (ld := label_definition pc).
  set (i2l := fold_left (fun d li => dict_set Z.eqb d (snd li) (fst li)) ld []).
  assert (Hsound : forall idx name,
             dict_get Z.eqb i2l idx = Some name -> In (name, idx) ld).
  { intros idx name H.
    destruct (int2label_sound ld [] idx name H) as [H' | H'];
      [discriminate | exact H']. }
  assert (Hcomplete : forall idx, In idx (dict_values ld) ->
                        exists name, dict_get Z.eqb i2l idx = Some name).
  { intros idx H. apply int2label_complete. left. exact H. }
  split; [exact Hsound|]. split; [exact Hcomplete|].
  split.
  - intros idx Hno. destruct (dict_get Z.eqb i2l idx) as [name|] eqn:E;
      [|reflexivity].
    exfalso. apply Hno. apply Hsound in E. apply (in_map snd) in E. exact E.
  - intros Hnd name idx Hget.
    apply (dict_get_In String.eqb String.eqb_eq) in Hget.
    destruct (Hcomplete idx) as (name' & Hname').
    { apply (in_map snd) in Hget. exact Hget. }
    rewrite Hname'. f_equal.
    apply (nodup_values_functional ld name' name idx Hnd);
      [apply Hsound; exact Hname' | exact Hget].
Qed.

(** X15: [int2label] inverts [label_definition].  Every entry it holds
    comes from a (name, index) pair of the definition, every index of the
    definition has an entry, an index outside it has none; and when no two
    classes share an index, looking up a class's index gives back its
    name. *)
Theorem int2label_inverts_label_definition (pc : PointCloud) :
  exists i2l,
    int2label pc = Some i2l /\
    (forall idx name,
        dict_get Z.eqb i2l idx = Some name ->
        In (name, idx) (label_definition pc)) /\
    (forall idx,
        In idx (dict_values (label_definition pc)) ->
        exists name, dict_get Z.eqb i2l idx = Some name) /\
    (forall idx,
        ~ In idx (dict_values (label_definition pc)) ->
        dict_get Z.eqb i2l idx = None) /\
    (NoDup (dict_values (label_definition pc)) ->
     forall name idx,
       dict_get String.eqb (label_definition pc) name = Some idx ->
       dict_get Z.eqb i2l idx = Some name).
Proof. exact (int2label_facts pc). Qed.

Lemma int2label_inverts_label_definition_witness :
  exists i2l,
    int2label
      (mkPointCloud "cloud.pcd" [(0, 0, 0)] None
         [("unlabeled"%string, 0%Z); ("car"%string, 5%Z)]
         None None None None (0, 0, 0) (0, 0, 0) (0, 0, 0) (0, 0, 0)
         (0, 0, 0) 0 0 0 0 0 0) = Some i2l /\
    dict_get Z.eqb i2l 5%Z = Some "car"%string.
Proof.
  destruct (int2label_inverts_label_definition
              (mkPointCloud "cloud.pcd" [(0, 0, 0)] None
                 [("unlabeled"%string, 0%Z); ("car"%string, 5%Z)]
                 None None None None (0, 0, 0) (0, 0, 0) (0, 0, 0) (0, 0, 0)
                 (0, 0, 0) 0 0 0 0 0 0))
    as (i2l & Hi & _ & _ & _ & Hinv).
  exists i2l. split; [exact Hi|].
  apply Hinv.
  - cbn. repeat constructor; cbn; intuition discriminate.
  - reflexivity.
Defined.

Lemma unique_insert_keys_complete (v : Z) (acc : list (Z * nat)) (k : Z) :
  k = v \/ In k (dict_keys acc) -> In k (dict_keys (unique_insert v acc)).
Proof.
  induction acc as [|[u c] acc IH]; cbn.
  - intros [-> | []]. left. reflexivity.
  - destruct (Z.ltb_spec v u); cbn; [intros [-> | [H0 | H0]]; auto|].
    destruct (Z.eqb_spec v u); cbn.
    + intros [-> | [H0 | H0]]; auto.
    + intros [-> | [H0 | H0]]; auto.
Qed.

Lemma np_unique_counts_complete (a : list Z) (k : Z) :
  In k a -> In k (dict_keys (np_unique_counts a)).
Proof.
  induction a as [|v a IH]; [intros []|].
  change (np_unique_counts (v :: a))
    with (unique_insert v (np_unique_counts a)).
  intros [-> | H]; apply unique_insert_keys_complete; auto.
Qed.

Lemma unique_insert_In (v : Z) (acc : list (Z * nat)) (k : Z) (c : nat) :
  StronglySorted Z.lt (dict_keys acc) ->
  In (k, c) (unique_insert v acc) ->
  k = v /\ (~ In v (dict_keys acc) /\ c = 1%nat \/
            exists c0, In (v, c0) acc /\ c = S c0) \/
  k <> v /\ In (k, c) acc.
Proof.
  induction acc as [|[u c'] acc IH]; cbn; intros Hs Hin.
  - destruct Hin as [E | []]. injection E as <- <-.
    left. split; [reflexivity|]. left. split; [intros []|reflexivity].
  - apply StronglySorted_inv in Hs. destruct Hs as [Hs Hall].
    rewrite Forall_forall in Hall.
    assert (Hkeys : forall k0 c0, In (k0, c0) acc -> (u < k0)%Z).
    { intros k0 c0 H0. apply Hall. apply (in_map fst) in H0. exact H0. }
    destruct (Z.ltb_spec v u).
    + destruct Hin as [E | [E | Hin]].
      * injection E as <- <-. left. split; [reflexivity|]. left.
        split; [|reflexivity].
        intros [E | E]; [lia|]. specialize (Hall _ E). lia.
      * injection E as <- <-. right. split; [lia|]. left. reflexivity.
      * right. split; [specialize (Hkeys _ _ Hin); lia|]. right. exact Hin.
    + destruct (Z.eqb_spec v u) as [-> | Hne].
      * destruct Hin as [E | Hin].
        -- injection E as <- <-. left. split; [reflexivity|]. right.
           exists c'. split; [left; reflexivity | reflexivity].
        -- right. split; [specialize (Hkeys _ _ Hin); lia|]. right. exact Hin.
      * destruct Hin as [E | Hin].
        -- injection E as <- <-. right. split; [lia|]. left. reflexivity.
        -- destruct (IH Hs Hin) as [[-> [[Hno ->] | (c0 & Hc0 & ->)]] | [Hk Hin']].
           ++ left. split; [reflexivity|]. left. split; [|reflexivity].
              intros [E | E]; [lia | contradiction].
           ++ left. split; [reflexivity|]. right. exists c0.
              split; [right; exact Hc0 | reflexivity].
           ++ right. split; [exact Hk | right; exact Hin'].
Qed.

Lemma np_unique_counts_count (a : list Z) : forall k c,
  In (k, c) (np_unique_counts a) -> c = count_occ Z.eq_dec a k.
Proof.
  induction a as [|v a IH]; intros k c Hin; [destruct Hin|].
  change (np_unique_counts (v :: a))
    with (unique_insert v (np_unique_counts a)) in Hin.
  destruct (unique_insert_In _ _ _ _ (np_unique_counts_sorted a) Hin)
    as [[-> [[Hno ->] | (c0 & Hc0 & ->)]] | [Hk Hin']].
  - rewrite count_occ_cons_eq by reflexivity. f_equal. symmetry.
    apply count_occ_not_In. intros H. apply Hno.
    apply np_unique_counts_complete. exact H.
  - rewrite count_occ_cons_eq by reflexivity. f_equal. apply IH. exact Hc0.
  - rewrite count_occ_cons_neq by (intros E; apply Hk; symmetry; exact E).
    apply IH. exact Hin'.
Qed.

Lemma fold_count_step_raise (i2l : list (Z * string)) (u : list (Z * nat))
  (e : exn) :
  fold_left (count_step i2l) u (Raise e) = Raise e.
Proof. induction u as [|ic u IH]; [reflexivity | exact IH]. Qed.

Lemma count_loop_untouched (i2l : list (Z * string)) (u : list (Z * nat))
  (name : string) :
  forall counter counter',
    fold_left (count_step i2l) u (Ok counter) = Ok counter' ->
    (forall ind, In ind (dict_keys u) -> dict_get Z.eqb i2l ind <> Some name) ->
    dict_get String.eqb counter' name = dict_get String.eqb counter name.
Proof.
  induction u as [|[ind c] u IH]; intros counter counter' H Hno.
  - cbn in H. injection H as <-. reflexivity.
  - cbn [fold_left] in H. unfold count_step at 2 in H. cbn [bind fst snd] in H.
    destruct (dict_get Z.eqb i2l ind) as [name0|] eqn:E.
    + rewrite (IH _ _ H) by (intros i Hi; apply Hno; right; exact Hi).
      apply (dict_set_get_other String.eqb String.eqb_eq).
      intros ->. apply (Hno ind (or_introl eq_refl)). exact E.
    + rewrite fold_count_step_raise in H. discriminate.
Qed.

Lemma count_loop_value (i2l : list (Z * string)) (u : list (Z * nat)) :
  forall counter counter',
    NoDup (dict_keys u) ->
    (forall i1 i2 name,
        dict_get Z.eqb i2l i1 = Some name ->
        dict_get Z.eqb i2l i2 = Some name -> i1 = i2) ->
    fold_left (count_step i2l) u (Ok counter) = Ok counter' ->
    forall ind c name,
      In (ind, c) u -> dict_get Z.eqb i2l ind = Some name ->
      dict_get String.eqb counter' name = Some c.
Proof.
  induction u as [|[ind0 c0] u IH];
    intros counter counter' Hnd Hinj H ind c name Hin Hname;
    [destruct Hin|].
  apply NoDup_cons_iff in Hnd. destruct Hnd as [Hfresh Hnd].
  cbn [fold_left] in H. unfold count_step at 2 in H. cbn [bind fst snd] in H.
  destruct (dict_get Z.eqb i2l ind0) as [name0|] eqn:E;
    [|rewrite fold_count_step_raise in H; discriminate].
  destruct Hin as [Hhead | Hin].
  - injection Hhead as -> ->.
    assert (name0 = name) as -> by congruence.
    rewrite (count_loop_untouched _ _ name _ _ H).
    + apply (dict_set_get_same String.eqb String.eqb_eq).
    + intros i Hi Hi'. apply Hfresh.
      rewrite (Hinj ind i name E Hi'). exact Hi.
  - apply (IH _ _ Hnd Hinj H ind c name Hin Hname).
Qed.

Lemma fold_count_step_error (i2l : list (Z * string)) (u : list (Z * nat)) :
  forall counter,
    (exists ind, In ind (dict_keys u) /\ dict_get Z.eqb i2l ind = None) ->
    fold_left (count_step i2l) u (Ok counter) = Raise KeyError.
Proof.
  induction u as [|[ind0 c0] u IH]; intros counter (ind & Hin & Hnone);
    [destruct Hin|].
  cbn [fold_left]. unfold count_step at 2. cbn [bind fst snd].
  destruct (dict_get Z.eqb i2l ind0) as [name0|] eqn:E.
  - apply IH. exists ind. split; [|exact Hnone].
    cbn in Hin. destruct Hin as [<- | Hin]; [congruence | exact Hin].
  - apply fold_count_step_raise.
Qed.

Lemma label_counts_unfold (pc : PointCloud) (ls : list Z) :
  labels pc = Some ls ->
  label_definition pc <> [] ->
  label_counts pc
  = (c <- fold_left
            (count_step
               (fold_left (fun d li => dict_set Z.eqb d (snd li) (fst li))
                  (label_definition pc) []))
            (np_unique_counts ls)
            (Ok (fold_left (fun d k => dict_set String.eqb d k 0%nat)
                   (dict_keys (label_definition pc)) [])) ;;
     Ok (Some c)).
Proof.
  intros Hl Hne. unfold label_counts, int2label. rewrite Hl.
  destruct (label_definition pc); [congruence | reflexivity].
Qed.

(** X16: with class names and class indices both unique, every label among
    the class indices and a non-empty definition, [label_counts] gives
    each class exactly the number of points labelled with its index. *)
Theorem label_counts_exact (pc : PointCloud) (ls : list Z) :
  labels pc = Some ls ->
  label_definition pc <> [] ->
  NoDup (dict_keys (label_definition pc)) ->
  NoDup (dict_values (label_definition pc)) ->
  (forall l, In l ls -> In l (dict_values (label_definition pc))) ->
  exists counter,
    label_counts pc = Ok (Some counter) /\
    forall name idx,
      In (name, idx) (label_definition pc) ->
      dict_get String.eqb counter name = Some (count_occ Z.eq_dec ls idx).
Proof.
  intros Hl Hne Hndk Hndv Hdom.
  destruct (label_counts_present pc ls Hl Hne Hndk Hdom)
    as (counter & Hc & _ & Hzero & _).
  exists counter. split; [exact Hc|].
  intros name idx Hentry.
  destruct (in_dec Z.eq_dec idx ls) as [Hin | Hout].
  - rewrite (label_counts_unfold pc ls Hl Hne) in Hc.
    destruct (fold_left _ (np_unique_counts ls) _) as [c'|e] eqn:Hrun;
      cbn in Hc; [|discriminate].
    injection Hc as ->.
    destruct (int2label_facts pc)
      as (i2l & Hi & Hsound & _ & _ & Hinv).
    unfold int2label in Hi. injection Hi as <-.
    destruct (np_unique_counts_facts ls) as (Hund & _ & _).
    pose proof (np_unique_counts_complete ls idx Hin) as Hkey.
    apply in_map_iff in Hkey. destruct Hkey as ([k c] & Ek & Hkc).
    cbn in Ek. subst k.
    rewrite (np_unique_counts_count ls idx c Hkc) in Hkc.
    set (i2l := fold_left (fun d li => dict_set Z.eqb d (snd li) (fst li))
                  (label_definition pc) []) in *.
    assert (Hinj : forall i1 i2 nm,
               dict_get Z.eqb i2l i1 = Some nm ->
               dict_get Z.eqb i2l i2 = Some nm -> i1 = i2).
    { intros i1 i2 nm H1 H2.
      apply (nodup_keys_functional (label_definition pc) nm i1 i2 Hndk);
        apply Hsound; assumption. }
    assert (Hname : dict_get Z.eqb i2l idx = Some name).
    { apply (Hinv Hndv).
      destruct (dict_get_key String.eqb String.eqb_eq
                  (label_definition pc) name) as (idx' & Hget).
      { apply (in_map fst) in Hentry. exact Hentry. }
      rewrite Hget. f_equal.
      apply (dict_get_In String.eqb String.eqb_eq) in Hget.
      apply (nodup_keys_functional (label_definition pc) name idx' idx Hndk);
        assumption. }
    exact (count_loop_value i2l _ _ _ Hund Hinj Hrun idx _ name Hkc Hname).
  - rewrite (Hzero name idx Hentry Hout). f_equal. symmetry.
    apply count_occ_not_In. exact Hout.
Qed.

Lemma label_counts_exact_witness :
  exists pc counter,
    PointCloud_init sample_palette sample_ramp sample_seg_config gl_empty
      "cloud.pcd"%string [(0, 0, 0); (1, 0, 0); (0, 1, 0)]
      [("unlabeled"%string, 0%Z); ("car"%string, 1%Z)]
      None (Some [1%Z; 0%Z; 1%Z]) None None false
    = (Ok pc, gl_empty) /\
    label_counts pc = Ok (Some counter) /\
    dict_get String.eqb counter "car"%string
    = Some (count_occ Z.eq_dec [1%Z; 0%Z; 1%Z] 1%Z).
Proof.
  eexists.
  match goal with
  | |- exists counter, ?i = (Ok ?p, _) /\ _ =>
      assert (Hi : i = (Ok p, gl_empty)) by reflexivity
  end.
  match type of Hi with
  | _ = (Ok ?p, _) =>
      destruct (label_counts_exact p [1%Z; 0%Z; 1%Z] eq_refl)
        as (counter & Hc & Hex)
  end.
  - discriminate.
  - cbn. repeat constructor; cbn; intuition discriminate.
  - cbn. repeat constructor; cbn; intuition discriminate.
  - cbn. intros l [<- | [<- | [<- | []]]]; auto.
  - exists counter. split; [exact Hi|]. split; [exact Hc|].
    apply Hex. cbn. auto.
Defined.

(** X17: a label with no class of that index makes [label_counts] raise
    [KeyError]: with labels present and a non-empty definition, if some
    label value is the index of no class the count fails. *)
Theorem label_counts_key_error (pc : PointCloud) (ls : list Z) :
  labels pc = Some ls ->
  label_definition pc <> [] ->
  (exists l, In l ls /\ ~ In l (dict_values (label_definition pc))) ->
  label_counts pc = Raise KeyError.
Proof.
  intros Hl Hne (l & Hin & Hout).
  rewrite (label_counts_unfold pc ls Hl Hne).
  rewrite fold_count_step_error; [reflexivity|].
  exists l. split; [apply np_unique_counts_complete; exact Hin|].
  destruct (int2label_facts pc)
    as (i2l & Hi & _ & _ & Hnone & _).
  unfold int2label in Hi. injection Hi as <-.
  apply Hnone. exact Hout.
Qed.

Lemma label_counts_key_error_witness :
  exists pc,
    PointCloud_init sample_palette sample_ramp sample_seg_config gl_empty
      "cloud.pcd"%string [(0, 0, 0); (1, 0, 0)]
      [("unlabeled"%string, 0%Z); ("car"%string, 5%Z)]
      None (Some [0%Z; 1%Z]) None None false
    = (Ok pc, gl_empty) /\
    label_counts pc = Raise KeyError.
Proof.
  eexists. split; [reflexivity|].
  apply (label_counts_key_error _ [0%Z; 1%Z]).
  - reflexivity.
  - discriminate.
  - exists 1%Z. split; [cbn; auto|].
    cbn. intros [E | [E | []]]; discriminate.
Defined.

(** ** Buffers *)

Lemma gl_buffer_data_app (a b : list (nat * list Point3D)) (v : nat) :
  gl_buffer_data (a ++ b) v
  = match gl_buffer_data b v with
    | Some d => Some d
    | None => gl_buffer_data a v
    end.
Proof.
  induction a as [|[n d] a IH]; cbn.
  - destruct (gl_buffer_data b v); reflexivity.
  - rewrite IH. destruct (gl_buffer_data b v); reflexivity.
Qed.

Lemma gl_buffer_data_three (old : list (nat * list Point3D)) (n : nat)
  (p c l : list Point3D) :
  let store := old ++ [(S n, p); (S (S n), c); (S (S (S n)), l)] in
  gl_buffer_data store (S n) = Some p /\
  gl_buffer_data store (S (S n)) = Some c /\
  gl_buffer_data store (S (S (S n))) = Some l /\
  forall v, (v <= n)%nat -> gl_buffer_data store v = gl_buffer_data old v.
Proof.
  intros store. unfold store. rewrite !gl_buffer_data_app.
  cbn [gl_buffer_data].
  rewrite !Nat.eqb_refl.
  assert (H1 : Nat.eqb (S (S n)) (S n) = false) by (apply Nat.eqb_neq; lia).
  assert (H2 : Nat.eqb (S (S (S n))) (S n) = false) by (apply Nat.eqb_neq; lia).
  assert (H3 : Nat.eqb (S (S (S n))) (S (S n)) = false)
    by (apply Nat.eqb_neq; lia).
  assert (H4 : Nat.eqb (S n) (S (S n)) = false) by (apply Nat.eqb_neq; lia).
  assert (H5 : Nat.eqb (S n) (S (S (S n))) = false) by (apply Nat.eqb_neq; lia).
  assert (H6 : Nat.eqb (S (S n)) (S (S (S n))) = false)
    by (apply Nat.eqb_neq; lia).
  rewrite H1, H2, H3. repeat split.
  intros v Hv. rewrite gl_buffer_data_app. cbn [gl_buffer_data].
  replace (Nat.eqb (S (S (S n))) v) with false
    by (symmetry; apply Nat.eqb_neq; lia).
  replace (Nat.eqb (S (S n)) v) with false
    by (symmetry; apply Nat.eqb_neq; lia).
  replace (Nat.eqb (S n) v) with false
    by (symmetry; apply Nat.eqb_neq; lia).
  reflexivity.
Qed.

Lemma label_colors_with_vbos (pc : PointCloud) (names : nat * nat * nat) :
  label_colors (with_vbos pc names) = label_colors pc.
Proof. reflexivity. Qed.

Lemma create_buffers_store (pc : PointCloud) (gl : GLState)
  (cs lc : list RGB) :
  colors pc = Some cs ->
  label_colors pc = Ok (Some lc) ->
  let n := gl_generated gl in
  exists gl',
    create_buffers pc gl
    = (Ok (with_vbos pc (S n, S (S n), S (S (S n)))), gl') /\
    gl_generated gl' = (3 + n)%nat /\
    gl_store gl'
    = gl_store gl
      ++ [(S n, points pc); (S (S n), cs); (S (S (S n)), lc)] /\
    gl_buffer_data (gl_store gl') (S n) = Some (points pc) /\
    gl_buffer_data (gl_store gl') (S (S n)) = Some cs /\
    gl_buffer_data (gl_store gl') (S (S (S n))) = Some lc /\
    forall v, (v <= n)%nat ->
      gl_buffer_data (gl_store gl') v = gl_buffer_data (gl_store gl) v.
Proof.
  intros Hc Hl n. unfold create_buffers, glGenBuffers3.
  rewrite label_colors_with_vbos, Hl. cbn [colors with_vbos fst snd points].
  rewrite Hc.
  match goal with
  | |- exists gl', (_, ?g) = (_, gl') /\ _ => exists g; set (G := g)
  end.
  assert (Hstore :
    gl_store G
    = gl_store gl
      ++ [(S n, points pc); (S (S n), cs); (S (S (S n)), lc)]).
  { unfold G, glBufferData; cbn [gl_generated gl_store].
    rewrite <- !app_assoc. reflexivity. }
  split; [reflexivity|]. split; [reflexivity|].
  rewrite Hstore. split; [reflexivity|].
  apply (gl_buffer_data_three (gl_store gl) n (points pc) cs lc).
Qed.

(** X18: when the blend returns an array and colours are present,
    [create_buffers] succeeds: it takes the next three buffer names,
    records them on the object and uploads the points, the colours and
    the blended colours under them, in that order.  Afterwards each of the
    three names holds its array, and every buffer that existed before
    still holds what it held (nothing is released or overwritten). *)
Theorem create_buffers_uploads (pc : PointCloud) (gl : GLState)
  (cs lc : list RGB) :
  colors pc = Some cs ->
  label_colors pc = Ok (Some lc) ->
  let n := gl_generated gl in
  exists gl',
    create_buffers pc gl
    = (Ok (with_vbos pc (S n, S (S n), S (S (S n)))), gl') /\
    gl_generated gl' = (3 + n)%nat /\
    gl_store gl'
    = gl_store gl
      ++ [(S n, points pc); (S (S n), cs); (S (S (S n)), lc)] /\
    gl_buffer_data (gl_store gl') (S n) = Some (points pc) /\
    gl_buffer_data (gl_store gl') (S (S n)) = Some cs /\
    gl_buffer_data (gl_store gl') (S (S (S n))) = Some lc /\
    forall v, (v <= n)%nat ->
      gl_buffer_data (gl_store gl') v = gl_buffer_data (gl_store gl) v.
Proof. exact (create_buffers_store pc gl cs lc). Qed.

Lemma create_buffers_uploads_witness :
  exists pc gl',
    PointCloud_init sample_palette sample_ramp sample_config gl_empty
      "cloud.pcd"%string [(0, 0, 0); (1, 0, 0)] []
      (Some [(1, 0, 0); (0, 1, 0)]) None None None false
    = (Ok pc, gl_empty) /\
    create_buffers pc gl_empty = (Ok (with_vbos pc (1, 2, 3)%nat), gl') /\
    gl_buffer_data (gl_store gl') 2 = Some [(1, 0, 0); (0, 1, 0)].
Proof.
  eexists.
  match goal with
  | |- exists gl', ?i = (Ok ?p, _) /\ _ =>
      assert (Hi : i = (Ok p, gl_empty)) by reflexivity;
      destruct (create_buffers_uploads p gl_empty
                  [(1, 0, 0); (0, 1, 0)] [(1, 0, 0); (0, 1, 0)]
                  eq_refl eq_refl)
        as (gl' & Hcb & _ & _ & _ & Hcol & _)
  end.
  exists gl'. split; [exact Hi|]. split; [exact Hcb | exact Hcol].
Defined.

(** X19: when the blend raises, [create_buffers] raises the same
    exception after the three names were generated and before anything is
    uploaded: the store is unchanged and three names are used up. *)
Theorem create_buffers_blend_error (pc : PointCloud) (gl : GLState) (e : exn) :
  label_colors pc = Raise e ->
  create_buffers pc gl
  = (Raise e, mkGL (3 + gl_generated gl) (gl_store gl)).
Proof.
  intros Hl. unfold create_buffers, glGenBuffers3.
  rewrite label_colors_with_vbos, Hl. reflexivity.
Qed.

Lemma create_buffers_blend_error_witness :
  exists pc,
    PointCloud_init sample_palette sample_ramp sample_seg_config gl_empty
      "cloud.pcd"%string [(0, 0, 0); (1, 0, 0)] [("car"%string, 0%Z)]
      (Some [(1, 0, 0); (0, 1, 0)]) (Some [0%Z; 5%Z]) None None false
    = (Ok pc, gl_empty) /\
    create_buffers pc gl_empty = (Raise IndexError, mkGL 3 []).
Proof.
  eexists. split; [reflexivity|].
  apply create_buffers_blend_error. reflexivity.
Defined.

(** ** Rendering *)

Ltac triple_eq :=
  unfold px, py, pz; cbn [fst snd];
  apply injective_projections; [apply injective_projections|];
  cbn [fst snd].

Lemma rotate_origin (a : R) (ax : Axis) : rotate a ax (0, 0, 0) = (0, 0, 0).
Proof. destruct ax; unfold rotate; triple_eq; ring. Qed.

Lemma rotate_zero (ax : Axis) (p : Point3D) : rotate 0 ax p = p.
Proof.
  destruct p as [[x y] z]. unfold rotate.
  replace (0 * PI / 180) with 0 by (field; lra).
  rewrite cos_0, sin_0. destruct ax; triple_eq; ring.
Qed.

Lemma rotate_sub (a : R) (ax : Axis) (p q : Point3D) :
  rotate a ax (vsub p q) = vsub (rotate a ax p) (rotate a ax q).
Proof.
  destruct p as [[x y] z]. destruct q as [[x' y'] z'].
  destruct ax; unfold rotate, vsub; triple_eq; ring.
Qed.

Lemma rotate_norm (a : R) (ax : Axis) (p : Point3D) :
  np_linalg_norm (rotate a ax p) = np_linalg_norm p.
Proof.
  destruct p as [[x y] z]. unfold np_linalg_norm, rotate.
  set (t := a * PI / 180).
  pose proof (sin2_cos2 t) as H. unfold Rsqr in H.
  destruct ax; cbn; f_equal; nra.
Qed.




Lemma set_gl_background_modelview (cfg : Config) (pc : PointCloud)
  (st : GLRender) (v : Point3D) :
  modelview (set_gl_background cfg pc st) v
  = modelview st (pose_transform pc v).
Proof. reflexivity. Qed.

Lemma pose_transform_sub (pc : PointCloud) (v w : Point3D) :
  vsub (pose_transform pc v) (pose_transform pc w)
  = rotate (rot_x pc) AxisX
      (rotate (rot_y pc) AxisY (rotate (rot_z pc) AxisZ (vsub v w))).
Proof.
  unfold pose_transform.
  set (c := pcd_center pc). set (t := (trans_x pc, trans_y pc, trans_z pc)).
  replace (vsub v w)
    with (vsub (vadd v (vscale c (-1))) (vadd w (vscale c (-1))))
    by (destruct v as [[? ?] ?]; destruct w as [[? ?] ?];
        destruct c as [[? ?] ?]; unfold vsub, vadd, vscale; triple_eq; ring).
  rewrite !rotate_sub.
  generalize (rotate (rot_x pc) AxisX
                (rotate (rot_y pc) AxisY
                   (rotate (rot_z pc) AxisZ (vadd v (vscale c (-1)))))).
  generalize (rotate (rot_x pc) AxisX
                (rotate (rot_y pc) AxisY
                   (rotate (rot_z pc) AxisZ (vadd w (vscale c (-1)))))).
  intros b a. destruct a as [[? ?] ?]. destruct b as [[? ?] ?].
  destruct c as [[? ?] ?]. unfold t, vsub, vadd. triple_eq; ring.
Qed.

(** X21: [set_gl_background] composes a rigid motion in front of the
    current matrix, pivoting on the midpoint of the bounding box: that
    midpoint is sent to itself plus the translation whatever the rotation
    is, and the distance between any two points is preserved. *)
Theorem set_gl_background_rigid (cfg : Config) (pc : PointCloud)
  (st : GLRender) :
  (forall v,
      modelview (set_gl_background cfg pc st) v
      = modelview st (pose_transform pc v)) /\
  pose_transform pc (pcd_center pc)
  = vadd (pcd_center pc) (get_translation pc) /\
  (forall v w,
      np_linalg_norm (vsub (pose_transform pc v) (pose_transform pc w))
      = np_linalg_norm (vsub v w)) /\
  gl_point_size (set_gl_background cfg pc st) = point_size cfg /\
  draws (set_gl_background cfg pc st) = draws st.
Proof.
  split; [intros v; reflexivity|].
  split.
  { unfold pose_transform, get_translation.
    replace (vadd (pcd_center pc) (vscale (pcd_center pc) (-1)))
      with ((0, 0, 0) : Point3D)
      by (destruct (pcd_center pc) as [[? ?] ?]; unfold vadd, vscale;
          triple_eq; ring).
    rewrite !rotate_origin.
    destruct (pcd_center pc) as [[? ?] ?]. unfold vadd. triple_eq; ring. }
  split; [|split; reflexivity].
  intros v w. rewrite pose_transform_sub, !rotate_norm. reflexivity.
Qed.

(** X22: with all three rotations at zero, as on a cloud constructed
    without a supplied rotation, [set_gl_background] only translates:
    every vertex is moved by the live translation. *)
Theorem set_gl_background_zero_rotation (cfg : Config) (pc : PointCloud)
  (st : GLRender) (v : Point3D) :
  get_rotations pc = (0, 0, 0) ->
  modelview (set_gl_background cfg pc st) v
  = modelview st (vadd v (get_translation pc)).
Proof.
  intros Hr. unfold get_rotations in Hr. injection Hr as Hx Hy Hz.
  rewrite set_gl_background_modelview. f_equal.
  unfold pose_transform, get_translation. rewrite Hx, Hy, Hz, !rotate_zero.
  destruct v as [[? ?] ?]. destruct (pcd_center pc) as [[? ?] ?].
  unfold vadd, vscale. triple_eq; ring.
Qed.

Lemma set_gl_background_zero_rotation_witness :
  get_rotations sample_cloud = (0, 0, 0) /\
  modelview (set_gl_background sample_config sample_cloud sample_render)
    (5, 5, 5)
  = modelview sample_render (vadd (5, 5, 5) (get_translation sample_cloud)).
Proof.
  split; [reflexivity|].
  apply set_gl_background_zero_rotation. reflexivity.
Defined.

(** X23: drawing after a successful [create_buffers].  [draw_pointcloud]
    issues exactly one draw call, of as many points as the cloud has; its
    vertex array reads the buffer holding the points and its colour array
    reads the buffer holding the blended colours when [color_with_label]
    is set and the plain colours otherwise; on return both client arrays
    are disabled and no buffer is bound. *)
Theorem draw_after_create_buffers (cfg : Config) (pc : PointCloud)
  (gl : GLState) (st : GLRender) (cs lc : list RGB) :
  colors pc = Some cs ->
  label_colors pc = Ok (Some lc) ->
  exists pc1 gl' st' vb cb,
    create_buffers pc gl = (Ok pc1, gl') /\
    draw_pointcloud cfg pc1 st = (Ok tt, st') /\
    draws st' = draws st ++ [(Some vb, Some cb, length (points pc))] /\
    gl_buffer_data (gl_store gl') vb = Some (points pc) /\
    gl_buffer_data (gl_store gl') cb
    = Some (if color_with_label cfg then lc else cs) /\
    vertex_array st' = false /\ color_array st' = false /\
    array_buffer st' = 0%nat.
Proof.
  intros Hc Hl.
  destruct (create_buffers_store pc gl cs lc Hc Hl)
    as (gl' & Hcb & _ & _ & Hp & Hcol & Hlab & _).
  set (n := gl_generated gl) in *.
  exists (with_vbos pc (S n, S (S n), S (S (S n)))), gl'.
  unfold draw_pointcloud. cbn [vbos with_vbos].
  eexists. exists (S n).
  exists (if color_with_label cfg then S (S (S n)) else S (S n)).
  split; [exact Hcb|]. split; [reflexivity|].
  split; [reflexivity|]. split; [exact Hp|].
  split; [destruct (color_with_label cfg); assumption|].
  repeat split.
Qed.

Lemma draw_after_create_buffers_witness :
  exists pc pc1 gl' st',
    PointCloud_init sample_palette sample_ramp sample_config gl_empty
      "cloud.pcd"%string [(0, 0, 0); (1, 0, 0)] []
      (Some [(1, 0, 0); (0, 1, 0)]) None None None false
    = (Ok pc, gl_empty) /\
    create_buffers pc gl_empty = (Ok pc1, gl') /\
    draw_pointcloud sample_config pc1 sample_render = (Ok tt, st') /\
    array_buffer st' = 0%nat.
Proof.
  eexists.
  match goal with
  | |- exists pc1 gl' st', ?i = (Ok ?p, _) /\ _ =>
      assert (Hi : i = (Ok p, gl_empty)) by reflexivity;
      destruct (draw_after_create_buffers sample_config p gl_empty
                  sample_render [(1, 0, 0); (0, 1, 0)]
                  [(1, 0, 0); (0, 1, 0)] eq_refl eq_refl)
        as (pc1 & gl' & st' & vb & cb & Hcb & Hd & _ & _ & _ & _ & _ & Hb)
  end.
  exists pc1, gl', st'. repeat split; assumption.
Defined.

(** X24: a cloud constructed with [write_buffer] off has no buffers, and
    stays so under pose mutations; [draw_pointcloud] on it raises
    [AttributeError] without issuing a draw call, after the modelview
    matrix has already been moved. *)
Theorem draw_without_buffers :
  forall gdc ramp cfg gl path pts ld cols segl it ir pc gl' ms st,
    PointCloud_init gdc ramp cfg gl path pts ld cols segl it ir false
    = (Ok pc, gl') ->
    gl' = gl /\
    fst (draw_pointcloud cfg (run pc ms) st) = Raise AttributeError /\
    draws (snd (draw_pointcloud cfg (run pc ms) st)) = draws st /\
    forall v,
      modelview (snd (draw_pointcloud cfg (run pc ms) st)) v
      = modelview st (pose_transform (run pc ms) v).
Proof.
  intros gdc ramp cfg gl path pts ld cols segl it ir pc gl' ms st H.
  destruct (PointCloud_init_state _ _ _ _ _ _ _ _ _ _ _ _ _ _ H)
    as (_ & _ & _ & _ & _ & _ & _ & _ & Hwb).
  destruct (Hwb eq_refl) as [Hv ->].
  split; [reflexivity|].
  assert (Hrun : vbos (run pc ms) = None).
  { destruct (run_same_data ms pc) as (_&_&_&_&_&_&_&E&_). congruence. }
  unfold draw_pointcloud. rewrite Hrun. cbn [fst snd].
  repeat split.
Qed.

Lemma draw_without_buffers_witness :
  exists pc,
    PointCloud_init sample_palette sample_ramp sample_config gl_empty
      "cloud.pcd"%string [(0, 0, 0); (1, 0, 0)] []
      None None None None false = (Ok pc, gl_empty) /\
    fst (draw_pointcloud sample_config (run pc [SetRotX 10]) sample_render)
    = Raise AttributeError.
Proof.
  eexists. split; [reflexivity|].
  destruct (draw_without_buffers sample_palette sample_ramp sample_config
              gl_empty "cloud.pcd"%string [(0, 0, 0); (1, 0, 0)] []
              None None None None _ _ [SetRotX 10] sample_render eq_refl)
    as (_ & H & _).
  exact H.
Defined.

(** ** Diagnostics *)

(** X25: what the first two rows of [print_details] show for a
    constructed cloud.  The point count is always shown in green (a cloud
    has at least one point); the colour count is never the yellow "None";
    it is green, equal to the point count, when colours were absent, empty
    or supplied one per point, and red, showing the supplied count, when a
    non-empty colours array of another length was supplied. *)
Theorem print_details_cells :
  forall gdc ramp cfg gl path pts ld cols segl it ir wb pc gl',
    PointCloud_init gdc ramp cfg gl path pts ld cols segl it ir wb
    = (Ok pc, gl') ->
    details_points_cell pc = green (length pts) /\
    details_colors_cell pc <> yellow_None /\
    (cols = None \/ cols = Some [] ->
     details_colors_cell pc = green (length pts)) /\
    (forall cs, cols = Some cs -> length cs = length pts ->
                details_colors_cell pc = green (length pts)) /\
    (forall cs, cols = Some cs -> cs <> [] -> length cs <> length pts ->
                details_colors_cell pc = red (length cs)).
Proof.
  intros gdc ramp cfg gl path pts ld cols segl it ir wb pc gl' H.
  destruct (PointCloud_init_fields _ _ _ _ _ _ _ _ _ _ _ _ _ _ H)
    as (Hne & Hp & _ & _ & _ & cs0 & Hc & Hcne & Hsome & Habs).
  unfold details_points_cell, details_colors_cell. rewrite Hp, Hc.
  split.
  { destruct pts; [congruence | reflexivity]. }
  split.
  { destruct (Nat.eqb _ _); discriminate. }
  split.
  { intros Hcols. destruct (Habs Hcols) as (Hl & _).
    rewrite Hl, Nat.eqb_refl. reflexivity. }
  split.
  { intros cs -> Hl. destruct cs as [|x xs].
    - destruct pts; [congruence | discriminate].
    - rewrite (Hsome x xs eq_refl), Hl, Nat.eqb_refl. reflexivity. }
  intros cs -> Hcs Hl. destruct cs as [|x xs]; [congruence|].
  rewrite (Hsome x xs eq_refl).
  destruct (Nat.eqb_spec (length (x :: xs)) (length pts));
    [contradiction | reflexivity].
Qed.

Lemma print_details_cells_witness :
  exists pc,
    PointCloud_init sample_palette sample_ramp sample_config gl_empty
      "cloud.pcd"%string [(0, 0, 0); (1, 0, 0); (0, 1, 0)] []
      (Some [(1, 0, 0); (0, 1, 0)]) None None None false
    = (Ok pc, gl_empty) /\
    details_points_cell pc = green 3 /\
    details_colors_cell pc = red 2.
Proof.
  eexists. split; [reflexivity|].
  destruct (print_details_cells sample_palette sample_ramp sample_config
              gl_empty "cloud.pcd"%string
              [(0, 0, 0); (1, 0, 0); (0, 1, 0)] []
              (Some [(1, 0, 0); (0, 1, 0)]) None None None false _ _ eq_refl)
    as (Hp & _ & _ & _ & Hred).
  split; [exact Hp|].
  apply (Hred [(1, 0, 0); (0, 1, 0)] eq_refl); [discriminate | cbn; lia].
Defined.
